(** * node-stdio-jsonrpc: the stdio transport (src/transport.ts)

    A shallow embedding of [StdioTransport]: the line framer
    ([handleData]), the connection race of [connect] (grace timer,
    connection timeout, stdout data, process error, close, exit), and
    [disconnect], [send], [isConnected] and [cleanup].

    JavaScript strings are sequences of UTF-16 code units, [Buffer]s are
    sequences of bytes; the event loop is a sequence of [Event]s, each
    handled to completion before the next one starts. *)

From Stdlib Require Import ZArith NArith List Lia Bool String Ascii.
From Stdlib.Strings Require Import Byte.
From stdpp Require Import base list.
From Equations Require Import Equations.
Import ListNotations.
Open Scope Z_scope.

(** ** JavaScript strings *)

Module JS.

(** A string value: its UTF-16 code units. *)
Definition jsstring := list N.

(** The code units of an ASCII literal. *)
Definition str (s : string) : jsstring :=
  map N_of_ascii (list_ascii_of_string s).

(** The code units of an ASCII literal in which an apostrophe stands
    for the double quote of JSON text. *)
Definition json (s : string) : jsstring :=
  map (fun c => if N.eqb c 39 then 34%N else c) (str s).

(** The newline code unit. *)
Definition LF : N := 10%N.

(** [s.indexOf(c)] for a one-unit needle: the first index, or [-1]. *)
Fixpoint indexOf (s : jsstring) (c : N) : Z :=
  match s with
  | [] => -1
  | x :: rest =>
      if N.eqb x c then 0
      else let i := indexOf rest c in
           if i =? -1 then -1 else i + 1
  end.

(** The index normalisation of [String.prototype.slice]: a negative index
    counts from the end, and the result is clamped to [0, len]. *)
Definition clampIndex (len k : Z) : Z :=
  if k <? 0 then Z.max (len + k) 0 else Z.min k len.

(** [s.slice(from, to)]; [to = None] is the one-argument form. *)
Definition slice (s : jsstring) (from : Z) (to : option Z) : jsstring :=
  let len := Z.of_nat (length s) in
  let a := clampIndex len from in
  let b := match to with Some e => clampIndex len e | None => len end in
  take (Z.to_nat (b - a)) (drop (Z.to_nat a) s).

(** WhiteSpace and LineTerminator code units of ECMAScript, the ones
    [trim] removes. *)
Definition isWhiteSpace (c : N) : bool :=
  let eq x := N.eqb c x in
  (eq 0x09 || eq 0x0A || eq 0x0B || eq 0x0C || eq 0x0D || eq 0x20
   || eq 0xA0 || eq 0x1680
   || (N.leb 0x2000 c && N.leb c 0x200A)
   || eq 0x2028 || eq 0x2029 || eq 0x202F || eq 0x205F || eq 0x3000
   || eq 0xFEFF)%N.

Fixpoint trimStart (s : jsstring) : jsstring :=
  match s with
  | [] => []
  | c :: rest => if isWhiteSpace c then trimStart rest else s
  end.

Definition trimEnd (s : jsstring) : jsstring :=
  rev (trimStart (rev s)).

(** [s.trim()]. *)
Definition trim (s : jsstring) : jsstring := trimEnd (trimStart s).

End JS.

(** ** Node.js runtime: Buffer decoding *)

Module Node.

Import JS.

(** A [Buffer]: raw bytes as they arrive from a pipe. *)
Definition Buffer := list byte.

(** The bytes of an ASCII literal. *)
Definition bytes (s : string) : Buffer := list_byte_of_string s.

(** The bytes of an ASCII literal in which an apostrophe stands for the
    double quote of JSON text. *)
Definition jsonBytes (s : string) : Buffer :=
  map (fun b => if Byte.eqb b x27 then x22 else b) (bytes s).

(** A multi-byte UTF-8 sequence in progress. *)
Record pending := mkPending {
  codepoint : N;
  remaining : nat;
  lower : N;
  upper : N
}.

Inductive lead := Emit (c : N) | Begin (p : pending).

Definition REPLACEMENT : N := 0xFFFD%N.

(** What a byte means at the start of a sequence. *)
Definition utf8Lead (b : N) : lead :=
  (if b <=? 0x7F then Emit b
   else if (0xC2 <=? b) && (b <=? 0xDF) then
     Begin (mkPending (N.land b 0x1F) 1 0x80 0xBF)
   else if (0xE0 <=? b) && (b <=? 0xEF) then
     Begin (mkPending (N.land b 0x0F) 2
              (if b =? 0xE0 then 0xA0 else 0x80)
              (if b =? 0xED then 0x9F else 0xBF))
   else if (0xF0 <=? b) && (b <=? 0xF4) then
     Begin (mkPending (N.land b 0x07) 3
              (if b =? 0xF0 then 0x90 else 0x80)
              (if b =? 0xF4 then 0x8F else 0xBF))
   else Emit REPLACEMENT)%N.

(** UTF-8 decoding with replacement: every maximal ill-formed prefix
    becomes one U+FFFD, and a sequence cut off by the end of the input
    becomes one U+FFFD too. The result is a list of code points. *)
Fixpoint utf8Decode (st : option pending) (bs : list N) : list N :=
  match bs with
  | [] => match st with None => [] | Some _ => [REPLACEMENT] end
  | b :: rest =>
      let fresh :=
        match utf8Lead b with
        | Emit c => c :: utf8Decode None rest
        | Begin q => utf8Decode (Some q) rest
        end in
      match st with
      | None => fresh
      | Some p =>
          if (N.leb (lower p) b && N.leb b (upper p))%bool then
            let cp := N.lor (N.shiftl (codepoint p) 6) (N.land b 0x3F) in
            match remaining p with
            | S (S r) => utf8Decode (Some (mkPending cp (S r) 0x80 0xBF)) rest
            | _ => cp :: utf8Decode None rest
            end
          else REPLACEMENT :: fresh
      end
  end.

(** A code point as UTF-16 code units. *)
Definition utf16 (cp : N) : jsstring :=
  (if cp <? 0x10000 then [cp]
   else let c := cp - 0x10000 in
        [0xD800 + N.shiftr c 10; 0xDC00 + N.land c 0x3FF])%N.

(** [data.toString()]: the buffer decoded as UTF-8, on its own. *)
Definition toString (data : Buffer) : jsstring :=
  flat_map utf16 (utf8Decode None (map Byte.to_N data)).

End Node.

Import JS Node.

(** ** Values exchanged with the caller and the child process *)

(** The [Error] objects of transport.ts, by the template that builds
    their message, and the ones the runtime hands over. *)
Inductive Error :=
| NotConnected
    (* new Error('Cannot send - not connected') *)
| ConnectionTimeout (ms : Z)
    (* new Error(`Connection timeout after ${connectionTimeout}ms`) *)
| ExitedImmediately (code : Z)
    (* new Error(`Process exited immediately with code: ${exitCode}`) *)
| ExitedDuringConnection (code : option Z) (signal : option string)
    (* new Error(`Process exited during connection with code: ${code},
       signal: ${signal}`) *)
| RuntimeError (message : string).
    (* an error object made by the runtime: failed spawn, failed write *)

(** What [emit] hands to the listeners. *)
Inductive Notification :=
| Message (line : jsstring)
| Log (message : jsstring)
| ErrorEvent (error : Error)
| Close.

(** How a call of a synchronous function ends. *)
Inductive completion :=
| Normal
| Throw (error : Error).

(** A call of [resolve] or [reject] on the promise of [connect]. *)
Inductive Outcome :=
| Resolved
| Rejected (error : Error).

(** The [ChildProcess] object, as far as the transport reads it, and
    what reached the process: the signals sent and the stdin writes. *)
Record ChildProcess := mkChild {
  killed : bool;
  exitCode : option Z;
  signalCode : option string;
  signalsSent : list string;
  stdinWrites : list jsstring
}.

(** The closure of one [connect()] call that got past the guard. *)
Record ConnectCall := mkCall {
  childProcess : option ChildProcess; (* None: spawn threw *)
  connectionDelay : bool;             (* the grace timer is pending *)
  timeout : bool;                     (* the timeout timer is pending *)
  settled : bool;
  promise : list Outcome              (* calls of resolve / reject *)
}.

(** The transport object. [process] names the call whose child process
    [this.process] is; [calls] keeps the closures, oldest first. *)
Record StdioTransport := mkTransport {
  connectionTimeout : Z;
  process : option nat;
  buffer : jsstring;
  connected : bool;
  errorListeners : nat;
  calls : list ConnectCall;
  emitted : list Notification;
  uncaught : list Error
}.

(** [new StdioTransport(config)]; only [connectionTimeout] matters to
    the behaviour modelled here. *)
Definition newStdioTransport (configTimeout : option Z) : StdioTransport :=
  {| connectionTimeout := default 10000 configTimeout;
     process := None;
     buffer := [];
     connected := false;
     errorListeners := 0;
     calls := [];
     emitted := [];
     uncaught := [] |}.

(** *** Field updates *)

Definition setProcess (p : option nat) (t : StdioTransport) :=
  mkTransport (connectionTimeout t) p (buffer t) (connected t)
    (errorListeners t) (calls t) (emitted t) (uncaught t).

Definition setBuffer (b : jsstring) (t : StdioTransport) :=
  mkTransport (connectionTimeout t) (process t) b (connected t)
    (errorListeners t) (calls t) (emitted t) (uncaught t).

Definition setConnected (c : bool) (t : StdioTransport) :=
  mkTransport (connectionTimeout t) (process t) (buffer t) c
    (errorListeners t) (calls t) (emitted t) (uncaught t).

Definition setErrorListeners (n : nat) (t : StdioTransport) :=
  mkTransport (connectionTimeout t) (process t) (buffer t) (connected t)
    n (calls t) (emitted t) (uncaught t).

Definition setCalls (cs : list ConnectCall) (t : StdioTransport) :=
  mkTransport (connectionTimeout t) (process t) (buffer t) (connected t)
    (errorListeners t) cs (emitted t) (uncaught t).

Definition setEmitted (ns : list Notification) (t : StdioTransport) :=
  mkTransport (connectionTimeout t) (process t) (buffer t) (connected t)
    (errorListeners t) (calls t) ns (uncaught t).

Definition setUncaught (es : list Error) (t : StdioTransport) :=
  mkTransport (connectionTimeout t) (process t) (buffer t) (connected t)
    (errorListeners t) (calls t) (emitted t) es.

Definition updateCall (k : nat) (f : ConnectCall -> ConnectCall)
    (t : StdioTransport) : StdioTransport :=
  setCalls (alter f k (calls t)) t.

Definition setChild (ch : option ChildProcess) (c : ConnectCall) :=
  mkCall ch (connectionDelay c) (timeout c) (settled c) (promise c).

Definition setConnectionDelay (b : bool) (c : ConnectCall) :=
  mkCall (childProcess c) b (timeout c) (settled c) (promise c).

Definition setTimeout (b : bool) (c : ConnectCall) :=
  mkCall (childProcess c) (connectionDelay c) b (settled c) (promise c).

Definition settle (o : Outcome) (c : ConnectCall) :=
  mkCall (childProcess c) (connectionDelay c) (timeout c) true
    (promise c ++ [o]).

Definition updateChild (k : nat) (f : ChildProcess -> ChildProcess)
    (t : StdioTransport) : StdioTransport :=
  updateCall k (fun c => setChild (f <$> childProcess c) c) t.

(** ** The runtime's side of a child process *)

(** The process has not reported its end. *)
Definition running (ch : ChildProcess) : bool :=
  match exitCode ch, signalCode ch with
  | None, None => true
  | _, _ => false
  end.

(** [spawn] returned: a fresh process object. *)
Definition spawned : ChildProcess :=
  mkChild false None None [] [].

(** [childProcess.kill(signal)]: the signal is delivered and [killed]
    set while the process runs; afterwards the call does nothing. *)
Definition kill (signal : string) (ch : ChildProcess) : ChildProcess :=
  if running ch then
    mkChild true (exitCode ch) (signalCode ch)
      (signalsSent ch ++ [signal]) (stdinWrites ch)
  else ch.

(** [childProcess.stdin.write(text)]. *)
Definition stdinWrite (text : jsstring) (ch : ChildProcess) : ChildProcess :=
  mkChild (killed ch) (exitCode ch) (signalCode ch) (signalsSent ch)
    (stdinWrites ch ++ [text]).

(** The runtime records the end of the process before it emits 'exit'. *)
Definition recordExit (code : option Z) (signal : option string)
    (ch : ChildProcess) : ChildProcess :=
  match signal with
  | Some sg =>
      mkChild (killed ch) (exitCode ch) (Some sg) (signalsSent ch)
        (stdinWrites ch)
  | None =>
      mkChild (killed ch) code (signalCode ch) (signalsSent ch)
        (stdinWrites ch)
  end.

(** ** EventEmitter *)

(** [this.emit(name, ...)] for 'message', 'log' and 'close': the
    notification goes to whoever listens. *)
Definition emit (n : Notification) (t : StdioTransport) : StdioTransport :=
  setEmitted (emitted t ++ [n]) t.

(** [this.emit('error', e)]: an EventEmitter with no listener for
    'error' throws [e] instead of delivering it. Listeners are taken to
    return normally. *)
Definition emitError (e : Error) (t : StdioTransport)
    : completion * StdioTransport :=
  match errorListeners t with
  | O => (Throw e, t)
  | S _ => (Normal, emit (ErrorEvent e) t)
  end.

(** [transport.on('error', listener)]. *)
Definition onError (t : StdioTransport) : StdioTransport :=
  setErrorListeners (S (errorListeners t)) t.

(** ** The line framer *)

(** The [while] loop of [handleData]: one iteration per newline found in
    [this.buffer]. It ends because each iteration shortens the buffer. *)
Equations? handleDataLoop (t : StdioTransport) : StdioTransport
    by wf (length (buffer t)) lt :=
  handleDataLoop t with Logic.inspect (indexOf (buffer t) LF) := {
    | exist _ newlineIndex Hindex with Z.eq_dec newlineIndex (-1) := {
      | left _ := t
      | right Hfound :=
          handleDataLoop
            (let line := trim (slice (buffer t) 0 (Some newlineIndex)) in
             let t1 := setBuffer (slice (buffer t) (newlineIndex + 1) None) t in
             if (0 <? Z.of_nat (length line)) then emit (Message line) t1
             else t1) } }.
Proof.
  assert (Hrange : forall s : jsstring,
             indexOf s LF = -1 \/ 0 <= indexOf s LF < Z.of_nat (length s)).
  { induction s as [|x rest IH]; simpl; [left; reflexivity|].
    destruct (N.eqb x LF); [right; lia|].
    destruct (Z.eqb_spec (indexOf rest LF) (-1)); [left; reflexivity|right; lia]. }
  assert (Hlen : (length (slice (buffer t) (indexOf (buffer t) LF + 1) None)
                  < length (buffer t))%nat).
  { destruct (Hrange (buffer t)) as [|Hi]; [congruence|].
    unfold slice, clampIndex.
    destruct (Z.ltb_spec (indexOf (buffer t) LF + 1) 0); [lia|].
    rewrite length_take, length_drop. lia. }
  destruct (0 <? _); simpl; exact Hlen.
Qed.

(** [handleData(data)]. *)
Definition handleData (data : Buffer) (t : StdioTransport) : StdioTransport :=
  handleDataLoop (setBuffer (buffer t ++ toString data) t).

(** ** The methods of the transport *)

(** [cleanup()]. *)
Definition cleanup (t : StdioTransport) : StdioTransport :=
  let t1 :=
    match process t with
    | Some j => setProcess None (updateChild j (kill "SIGTERM") t)
    | None => t
    end in
  setBuffer [] (setConnected false t1).

(** [disconnect()]. The promise it returns is settled when the body
    ends: the completion is the outcome of that promise. *)
Definition disconnect (t : StdioTransport) : completion * StdioTransport :=
  match process t with
  | None => (Normal, t)
  | Some _ => (Normal, cleanup t)
  end.

(** [send(message)]. [writeThrows] is what the runtime does with the
    write: [Some e] when [stdin.write] throws [e]. *)
Definition send (message : jsstring) (writeThrows : option Error)
    (t : StdioTransport) : completion * StdioTransport :=
  match process t, connected t with
  | Some j, true =>
      match writeThrows with
      | None => (Normal, updateChild j (stdinWrite (message ++ [LF])) t)
      | Some e => emitError e t
      end
  | _, _ => emitError NotConnected t
  end.

(** [isConnected()]. *)
Definition isConnected (t : StdioTransport) : bool :=
  connected t &&
  match process t with
  | Some j =>
      match calls t !! j with
      | Some (mkCall (Some ch) _ _ _ _) =>
          bool_decide (exitCode ch = None) && negb (killed ch)
      | _ => false
      end
  | None => false
  end.

(** *** The closure of [connect] *)

(** [resolveOnce()] of call [k]. *)
Definition resolveOnce (k : nat) (t : StdioTransport) : StdioTransport :=
  match calls t !! k with
  | Some c =>
      if settled c then t
      else setConnected true (updateCall k (settle Resolved) t)
  | None => t
  end.

(** [rejectOnce(error)] of call [k]. *)
Definition rejectOnce (k : nat) (error : Error) (t : StdioTransport)
    : StdioTransport :=
  match calls t !! k with
  | Some c =>
      if settled c then t
      else setConnected false (updateCall k (settle (Rejected error)) t)
  | None => t
  end.

(** [if (timeout) clearTimeout(timeout)] and
    [if (connectionDelay) clearTimeout(connectionDelay)]. *)
Definition clearTimeoutTimer (k : nat) : StdioTransport -> StdioTransport :=
  updateCall k (setTimeout false).

Definition clearConnectionDelay (k : nat) : StdioTransport -> StdioTransport :=
  updateCall k (setConnectionDelay false).

(** What [connect()] returns: a promise that is already resolved, or the
    promise of the new call. *)
Inductive ConnectResult :=
| AlreadyConnected
| Pending (k : nat).

(** [connect()]. [spawnThrows] is what the runtime does with the spawn:
    [Some e] when [spawn] throws [e], [None] when it returns a process
    object (a command that cannot be run is reported later, through the
    'error' event). *)
Definition connect (spawnThrows : option Error) (t : StdioTransport)
    : ConnectResult * StdioTransport :=
  if connected t then (AlreadyConnected, t)
  else
    let k := length (calls t) in
    match spawnThrows with
    | None =>
        (Pending k,
         setProcess (Some k)
           (setCalls (calls t ++ [mkCall (Some spawned) true true false []]) t))
    | Some e =>
        (Pending k,
         rejectOnce k e
           (setCalls (calls t ++ [mkCall None false false false []]) t))
    end.

(** The callback of the grace timer ([connectionDelay], 100 ms). *)
Definition onConnectionDelay (k : nat) (t : StdioTransport) : StdioTransport :=
  match calls t !! k with
  | Some (mkCall (Some ch) _ _ isSettled _) =>
      if negb (connected t) && bool_decide (process t = Some k)
         && negb (killed ch) && bool_decide (exitCode ch = None)
      then resolveOnce k t
      else
        match exitCode ch with
        | Some code =>
            if negb isSettled then rejectOnce k (ExitedImmediately code) t
            else t
        | None => t
        end
  | _ => t
  end.

(** The callback of the connection timeout timer. *)
Definition onTimeout (k : nat) (t : StdioTransport) : StdioTransport :=
  let t1 := clearConnectionDelay k t in
  let t2 := cleanup t1 in
  rejectOnce k (ConnectionTimeout (connectionTimeout t2)) t2.

(** The 'data' listener of [childProcess.stdout]. *)
Definition onStdoutData (k : nat) (data : Buffer) (t : StdioTransport)
    : StdioTransport :=
  handleData data (clearConnectionDelay k (clearTimeoutTimer k t)).

(** The 'data' listener of [childProcess.stderr]. *)
Definition onStderrData (data : Buffer) (t : StdioTransport)
    : StdioTransport :=
  let message := trim (toString data) in
  match message with
  | [] => t
  | _ :: _ => emit (Log message) t
  end.

(** The 'error' listener of the child process. *)
Definition onProcessError (k : nat) (error : Error) (t : StdioTransport)
    : completion * StdioTransport :=
  let t1 := clearConnectionDelay k (clearTimeoutTimer k t) in
  let isSettled :=
    match calls t1 !! k with Some c => settled c | None => false end in
  let '(result, t2) :=
    if isSettled && connected t1 then emitError error t1
    else (Normal, t1) in
  match result with
  | Normal => (Normal, rejectOnce k error t2)
  | Throw e => (Throw e, t2)
  end.

(** The 'close' listener of the child process. *)
Definition onProcessClose (k : nat) (code : option Z) (signal : option string)
    (t : StdioTransport) : StdioTransport :=
  let t1 := clearConnectionDelay k (clearTimeoutTimer k t) in
  match calls t1 !! k with
  | Some c =>
      if negb (settled c) then
        rejectOnce k (ExitedDuringConnection code signal) t1
      else emit Close (setConnected false t1)
  | None => t1
  end.

(** The 'exit' listener of the child process. *)
Definition onProcessExit (k : nat) (t : StdioTransport) : StdioTransport :=
  setConnected false (clearConnectionDelay k t).

(** ** The event loop *)

(** What can happen to a transport: a call of its API, a timer of call
    [k] firing, or an event of the child process of call [k]. *)
Inductive Event :=
| CallConnect (spawnThrows : option Error)
| CallDisconnect
| CallSend (message : jsstring) (writeThrows : option Error)
| CallOnError
| GraceTimer (k : nat)
| TimeoutTimer (k : nat)
| StdoutData (k : nat) (data : Buffer)
| StderrData (k : nat) (data : Buffer)
| ProcessError (k : nat) (error : Error)
| ProcessClose (k : nat) (code : option Z) (signal : option string)
| ProcessExit (k : nat) (code : option Z) (signal : option string).

(** The listeners of call [k] exist once [spawn] has returned. *)
Definition hasChild (k : nat) (t : StdioTransport) : bool :=
  match calls t !! k with
  | Some (mkCall (Some _) _ _ _ _) => true
  | _ => false
  end.

(** One turn of the event loop. A timer fires only while it is pending,
    and is spent once its callback has run; a process event
    reaches the listeners of the call that spawned the process; an
    exception that leaves a listener is an uncaught exception. *)
Definition step (t : StdioTransport) (e : Event) : StdioTransport :=
  match e with
  | CallConnect spawnThrows => snd (connect spawnThrows t)
  | CallDisconnect => snd (disconnect t)
  | CallSend message writeThrows => snd (send message writeThrows t)
  | CallOnError => onError t
  | GraceTimer k =>
      match calls t !! k with
      | Some c =>
          if connectionDelay c
          then clearConnectionDelay k (onConnectionDelay k t)
          else t
      | None => t
      end
  | TimeoutTimer k =>
      match calls t !! k with
      | Some c =>
          if timeout c then clearTimeoutTimer k (onTimeout k t) else t
      | None => t
      end
  | StdoutData k data =>
      if hasChild k t then onStdoutData k data t else t
  | StderrData k data =>
      if hasChild k t then onStderrData data t else t
  | ProcessError k error =>
      if hasChild k t then
        match onProcessError k error t with
        | (Normal, t1) => t1
        | (Throw x, t1) => setUncaught (uncaught t1 ++ [x]) t1
        end
      else t
  | ProcessClose k code signal =>
      if hasChild k t then onProcessClose k code signal t else t
  | ProcessExit k code signal =>
      if hasChild k t
      then onProcessExit k (updateChild k (recordExit code signal) t)
      else t
  end.

(** A run of the event loop. *)
Definition run (t : StdioTransport) (events : list Event) : StdioTransport :=
  fold_left step events t.

(** A transport on which [connect()] has just been called. *)
Definition spawning : StdioTransport :=
  step (newStdioTransport None) (CallConnect None).

(** The same, once the grace timer has fired. *)
Definition established : StdioTransport :=
  step spawning (GraceTimer 0).


(** ** The framing rule, in the words of the specification *)

(** A text cut at its newlines: the complete lines, each without its
    newline, and the tail after the last newline. *)
Fixpoint splitLines (text : jsstring) : list jsstring * jsstring :=
  match text with
  | [] => ([], [])
  | c :: rest =>
      let '(lines, tail) := splitLines rest in
      if N.eqb c LF then ([] :: lines, tail)
      else match lines with
           | [] => ([], c :: tail)
           | l :: others => ((c :: l) :: others, tail)
           end
  end.

Definition nonEmpty (s : jsstring) : bool :=
  match s with [] => false | _ :: _ => true end.

(** The frames of a text: its complete lines, trimmed, the empty ones
    dropped. *)
Definition frames (text : jsstring) : list jsstring :=
  filter (fun l => nonEmpty l = true) (trim <$> (splitLines text).1).

(** The carry-over of a text: its un-terminated tail. *)
Definition carryOver (text : jsstring) : jsstring := (splitLines text).2.

(** The chunks of a stream fed one by one. *)
Definition feed (chunks : list Buffer) (t : StdioTransport) : StdioTransport :=
  fold_left (fun t data => handleData data t) chunks t.

(** A byte that is a whole character on its own. *)
Definition isAscii (b : byte) : bool := N.leb (Byte.to_N b) 0x7F.

(** ** The life of one connect call *)

(** What the handlers can do to the closure of a [connect()] call: touch
    the process object, cancel a timer, reject while unsettled, and
    resolve while unsettled and while the grace timer is pending. *)
Inductive callChange : ConnectCall -> ConnectCall -> Prop :=
| change_none c : callChange c c
| change_child c ch : callChange c (setChild ch c)
| change_delay c : callChange c (setConnectionDelay false c)
| change_timeout c : callChange c (setTimeout false c)
| change_reject c e :
    settled c = false -> callChange c (settle (Rejected e) c)
| change_resolve c :
    settled c = false -> connectionDelay c = true ->
    callChange c (settle Resolved c)
| change_then c1 c2 c3 :
    callChange c1 c2 -> callChange c2 c3 -> callChange c1 c3.

(** The [settled] flag and the promise agree: nothing was called on the
    promise of an unsettled call, exactly one of [resolve] and [reject]
    was called, once, on the promise of a settled one. *)
Definition callOk (c : ConnectCall) : Prop :=
  (settled c = false /\ promise c = [])
  \/ (settled c = true /\ exists o, promise c = [o]).

(** A call that can no longer resolve: its grace timer is not pending and
    [resolve] was not called. *)
Definition cannotResolve (c : ConnectCall) : Prop :=
  connectionDelay c = false /\ Resolved ∉ promise c.

(** The calls of one transport, before and after. The old calls keep
    their places; no call is added. *)
Definition callsChange (t t' : StdioTransport) : Prop :=
  Forall2 callChange (calls t) (calls t').

(** The child processes that were spawned and have not ended. *)
Definition liveProcesses (t : StdioTransport) : list ChildProcess :=
  filter (fun ch => running ch = true)
    (omap childProcess (calls t)).

(** The process object of call [j], when [spawn] returned one. *)
Definition childOf (j : nat) (t : StdioTransport) : option ChildProcess :=
  calls t !! j ≫= childProcess.

(** * Properties *)

(** ** Sanity checks of the model *)

Example toString_ascii :
  toString (jsonBytes "{'a':1}") = json "{'a':1}".
Proof. reflexivity. Qed.

(** U+20AC and U+1F600 from their UTF-8 bytes; a lone lead byte and a
    lone continuation byte. *)
Example toString_multibyte :
  toString [xe2; x82; xac; xf0; x9f; x98; x80]
  = [0x20AC; 0xD83D; 0xDE00]%N
  /\ toString [xc3] = [0xFFFD%N]
  /\ toString [xa9; x0a] = [0xFFFD%N; LF].
Proof. repeat split. Qed.

Example handleData_two_lines :
  let t := handleData
             (jsonBytes "{'a':1}" ++ [x0a; x20; x0a] ++ jsonBytes "{'b':2}"
              ++ [x0a] ++ jsonBytes "{'c'")
             (newStdioTransport None) in
  emitted t = [Message (json "{'a':1}"); Message (json "{'b':2}")]
  /\ buffer t = json "{'c'".
Proof. vm_compute. split; reflexivity. Qed.

Example spawning_state :
  process spawning = Some 0%nat /\ connected spawning = false
  /\ calls spawning = [mkCall (Some spawned) true true false []].
Proof. repeat split. Qed.

Example established_state :
  isConnected established = true
  /\ calls established = [mkCall (Some spawned) false true true [Resolved]].
Proof. repeat split. Qed.

(** The test named: should connect even if process doesnt output data.
    the process ends after the grace timer, the timeout timer is still
    pending. *)
Example exit_after_establishing :
  let t := run established [ProcessExit 0 (Some 0) None;
                            ProcessClose 0 (Some 0) None] in
  isConnected t = false /\ emitted t = [Close]
  /\ (promise <$> calls t) = [[Resolved]].
Proof. repeat split. Qed.

(** The timeout timer is not cancelled when the grace timer resolves the
    call: when it fires later it tears the connection down, and the
    outcome of the connect operation stays what it was. *)
Example timeout_after_establishing :
  let t := step established (TimeoutTimer 0) in
  process t = None /\ isConnected t = false
  /\ (promise <$> calls t) = [[Resolved]].
Proof. repeat split. Qed.

(** ** The line framer *)

Lemma indexOf_range (s : jsstring) (c : N) :
  indexOf s c = -1 \/ 0 <= indexOf s c < Z.of_nat (length s).
Proof.
  induction s as [|x rest IH]; simpl; [left; reflexivity|].
  destruct (N.eqb x c); [right; lia|].
  destruct (Z.eqb_spec (indexOf rest c) (-1)); [left; reflexivity|right; lia].
Qed.


Lemma indexOf_none (s : jsstring) (c : N) :
  indexOf s c = -1 <-> c ∉ s.
Proof.
  induction s as [|x rest IH]; simpl.
  - split; [intros _; apply not_elem_of_nil|reflexivity].
  - destruct (N.eqb_spec x c) as [->|Hxc].
    + split; [lia|]. intros H. exfalso. apply H. left.
    + pose proof (indexOf_range rest c) as Hr.
      destruct (Z.eqb_spec (indexOf rest c) (-1)) as [Heq|Hne].
      * split; [|reflexivity]. intros _. rewrite not_elem_of_cons.
        split; [congruence|]. apply IH, Heq.
      * split; [lia|]. rewrite not_elem_of_cons. intros [_ H].
        apply IH in H. contradiction.
Qed.

Lemma indexOf_found (s : jsstring) (c : N) (i : Z) :
  indexOf s c = i -> i <> -1 ->
  s = take (Z.to_nat i) s ++ c :: drop (Z.to_nat (i + 1)) s
  /\ c ∉ take (Z.to_nat i) s.
Proof.
  revert i. induction s as [|x rest IH]; simpl; intros i Hi Hne; [lia|].
  destruct (N.eqb_spec x c) as [->|Hxc].
  - subst i. simpl. split; [reflexivity|apply not_elem_of_nil].
  - pose proof (indexOf_range rest c) as Hr.
    destruct (Z.eqb_spec (indexOf rest c) (-1)) as [Heq|Hne']; [lia|].
    destruct (IH (indexOf rest c) eq_refl Hne') as [Hsplit Hnot].
    subst i.
    replace (Z.to_nat (indexOf rest c + 1)) with (S (Z.to_nat (indexOf rest c))) by lia.
    replace (Z.to_nat (indexOf rest c + 1 + 1)) with (S (Z.to_nat (indexOf rest c + 1))) by lia.
    simpl. split.
    + f_equal. exact Hsplit.
    + rewrite not_elem_of_cons. split; [congruence|exact Hnot].
Qed.

Lemma slice_prefix (s : jsstring) (i : Z) :
  0 <= i < Z.of_nat (length s) ->
  slice s 0 (Some i) = take (Z.to_nat i) s.
Proof.
  intros Hi. unfold slice, clampIndex. simpl.
  destruct (Z.ltb_spec i 0); [lia|].
  rewrite (Z.min_l i) by lia. rewrite (Z.min_l 0) by lia.
  replace (Z.to_nat (i - 0)) with (Z.to_nat i) by lia.
  reflexivity.
Qed.

Lemma slice_suffix (s : jsstring) (i : Z) :
  0 <= i < Z.of_nat (length s) ->
  slice s (i + 1) None = drop (Z.to_nat (i + 1)) s.
Proof.
  intros Hi. unfold slice, clampIndex.
  destruct (Z.ltb_spec (i + 1) 0); [lia|].
  rewrite Z.min_l by lia.
  apply take_ge. rewrite length_drop. lia.
Qed.

Lemma splitLines_no_newline (s : jsstring) :
  LF ∉ s -> splitLines s = ([], s).
Proof.
  induction s as [|x rest IH]; simpl; [reflexivity|].
  rewrite not_elem_of_cons. intros [Hx Hrest].
  rewrite (IH Hrest). destruct (N.eqb_spec x LF) as [Heq|_]; simpl;
      [exfalso; apply Hx; symmetry; exact Heq|reflexivity].
Qed.

Lemma splitLines_line (l r : jsstring) :
  LF ∉ l ->
  splitLines (l ++ LF :: r) = (l :: (splitLines r).1, (splitLines r).2).
Proof.
  induction l as [|x rest IH]; simpl; intros Hl.
  - destruct (splitLines r); reflexivity.
  - apply not_elem_of_cons in Hl as [Hx Hrest].
    rewrite (IH Hrest). destruct (N.eqb_spec x LF) as [Heq|_]; simpl;
      [exfalso; apply Hx; symmetry; exact Heq|reflexivity].
Qed.

Lemma nonEmpty_length (s : jsstring) :
  (0 <? Z.of_nat (length s)) = nonEmpty s.
Proof. destruct s; reflexivity. Qed.

Lemma frames_no_newline (s : jsstring) :
  LF ∉ s -> frames s = [] /\ carryOver s = s.
Proof.
  intros H. unfold frames, carryOver.
  rewrite (splitLines_no_newline s H). split; reflexivity.
Qed.

Lemma frames_line (l r : jsstring) :
  LF ∉ l ->
  frames (l ++ LF :: r)
  = (if nonEmpty (trim l) then [trim l] else []) ++ frames r
  /\ carryOver (l ++ LF :: r) = carryOver r.
Proof.
  intros H. unfold frames, carryOver.
  rewrite (splitLines_line l r H). simpl. split; [|reflexivity].
  rewrite filter_cons.
  destruct (nonEmpty (trim l)) eqn:Hne.
  - rewrite decide_True by reflexivity. reflexivity.
  - rewrite decide_False by discriminate. reflexivity.
Qed.

(** The loop of [handleData] computes the framing rule: it publishes the
    frames of the buffer, in order, and leaves the un-terminated tail. *)
Lemma handleDataLoop_spec (t : StdioTransport) :
  handleDataLoop t =
  setEmitted (emitted t ++ (Message <$> frames (buffer t)))
    (setBuffer (carryOver (buffer t)) t).
Proof.
  funelim (handleDataLoop t).
  - clear Heq Heqcall.
    match goal with Hi : indexOf _ _ = -1 |- _ =>
      apply indexOf_none, frames_no_newline in Hi as [Hf Hc] end.
    rewrite Hf, Hc. destruct t; unfold setEmitted, setBuffer; simpl.
    rewrite app_nil_r. reflexivity.
  - clear Heq Heqcall.
    match goal with IH : handleDataLoop _ = _ |- _ => rewrite IH; clear IH end.
    destruct (indexOf_found _ _ _ eq_refl Hfound) as [Hsplit Hnot].
    destruct (indexOf_range (buffer t) LF) as [|Hr]; [congruence|].
    rewrite slice_prefix, slice_suffix by assumption.
    remember (take (Z.to_nat (indexOf (buffer t) LF)) (buffer t)) as l eqn:Hl.
    remember (drop (Z.to_nat (indexOf (buffer t) LF + 1)) (buffer t)) as r eqn:Hr'.
    clear Hl Hr' Hr Hfound.
    destruct (frames_line l r Hnot) as [Hf Hc].
    rewrite Hsplit, Hf, Hc. rewrite nonEmpty_length.
    destruct t as [ct p b c n cs em un]; unfold setEmitted, setBuffer, emit.
    simpl. destruct (nonEmpty (trim l)); simpl.
    + rewrite <- app_assoc. reflexivity.
    + reflexivity.
Qed.

(** [splitLines] cuts exactly at the newlines: gluing the lines back,
    each with its newline, and the tail gives the text; no line and no
    tail holds a newline. *)
Lemma splitLines_sound (text : jsstring) :
  text = concat ((fun l => l ++ [LF]) <$> (splitLines text).1)
         ++ (splitLines text).2
  /\ Forall (fun l => LF ∉ l) (splitLines text).1
  /\ LF ∉ (splitLines text).2.
Proof.
  induction text as [|c rest IH]; simpl.
  - repeat split; [constructor|apply not_elem_of_nil].
  - destruct (splitLines rest) as [lines tail]; simpl in IH.
    destruct IH as (Hglue & Hlines & Htail).
    destruct (N.eqb_spec c LF) as [->|Hc]; simpl.
    + repeat split; [f_equal; exact Hglue| |exact Htail].
      constructor; [apply not_elem_of_nil|exact Hlines].
    + destruct lines as [|l others]; simpl in *.
      * repeat split; [f_equal; exact Hglue|constructor|].
        rewrite not_elem_of_cons. split; [congruence|exact Htail].
      * repeat split; [f_equal; exact Hglue| |exact Htail].
        inversion Hlines; subst. constructor; [|assumption].
        rewrite not_elem_of_cons. split; [congruence|assumption].
Qed.

Lemma carryOver_no_newline (text : jsstring) : LF ∉ carryOver text.
Proof. apply splitLines_sound. Qed.

Lemma splitLines_app (a b : jsstring) :
  splitLines (a ++ b)
  = ((splitLines a).1 ++ (splitLines ((splitLines a).2 ++ b)).1,
     (splitLines ((splitLines a).2 ++ b)).2).
Proof.
  induction a as [|c rest IH]; simpl.
  - destruct (splitLines b); reflexivity.
  - rewrite IH. destruct (splitLines rest) as [lr tr]; simpl.
    destruct (N.eqb c LF) eqn:Hc; simpl; [reflexivity|].
    destruct lr as [|l others]; simpl.
    + rewrite Hc. destruct (splitLines (tr ++ b)) as [[|l o] tb]; reflexivity.
    + reflexivity.
Qed.

Lemma frames_app (a b : jsstring) :
  frames (a ++ b) = frames a ++ frames (carryOver a ++ b)
  /\ carryOver (a ++ b) = carryOver (carryOver a ++ b).
Proof.
  unfold frames, carryOver. rewrite splitLines_app. simpl.
  rewrite fmap_app, filter_app. split; reflexivity.
Qed.

Lemma handleData_spec (data : Buffer) (t : StdioTransport) :
  handleData data t =
  setEmitted (emitted t ++ (Message <$> frames (buffer t ++ toString data)))
    (setBuffer (carryOver (buffer t ++ toString data)) t).
Proof.
  unfold handleData. rewrite handleDataLoop_spec.
  destruct t; reflexivity.
Qed.

(** Feeding chunks one by one publishes the frames of the carry-over
    followed by the decoded chunks, and keeps the tail of that text. *)
Lemma feed_spec (chunks : list Buffer) (t : StdioTransport) :
  LF ∉ buffer t ->
  let text := buffer t ++ concat (toString <$> chunks) in
  feed chunks t =
  setEmitted (emitted t ++ (Message <$> frames text))
    (setBuffer (carryOver text) t).
Proof.
  revert t. induction chunks as [|d ds IH]; intros t Hbuf; cbv zeta.
  - simpl. rewrite app_nil_r.
    destruct (frames_no_newline (buffer t) Hbuf) as [-> ->].
    destruct t; unfold setEmitted, setBuffer; simpl.
    rewrite app_nil_r. reflexivity.
  - change (feed (d :: ds) t) with (feed ds (handleData d t)).
    rewrite fmap_cons, concat_cons, handleData_spec.
    rewrite IH by apply carryOver_no_newline. cbv zeta.
    rewrite (app_assoc (buffer t)).
    unfold setEmitted at 2 4, setBuffer at 2 4; cbn [buffer emitted].
    destruct (frames_app (buffer t ++ toString d) (concat (toString <$> ds)))
      as [-> ->].
    rewrite fmap_app, app_assoc. reflexivity.
Qed.

(** *** Chunk boundaries *)

Lemma utf8Decode_ascii (a : list N) (rest : list N) :
  Forall (fun b => (b <= 0x7F)%N) a ->
  utf8Decode None (a ++ rest) = a ++ utf8Decode None rest.
Proof.
  induction 1 as [|b a Hb _ IH]; [reflexivity|].
  simpl. unfold utf8Lead.
  destruct (N.leb_spec b 0x7F); [|lia].
  rewrite IH. reflexivity.
Qed.

Lemma flat_map_utf16_ascii (a : list N) (rest : list N) :
  Forall (fun b => (b <= 0x7F)%N) a ->
  flat_map utf16 (a ++ rest) = a ++ flat_map utf16 rest.
Proof.
  induction 1 as [|b a Hb _ IH]; [reflexivity|].
  simpl. rewrite IH. unfold utf16.
  destruct (N.ltb_spec b 0x10000); [reflexivity|lia].
Qed.

(** A chunk boundary after ASCII bytes does not change the decoding. *)
Lemma toString_app_ascii (a b : Buffer) :
  Forall (fun x => isAscii x = true) a ->
  toString (a ++ b) = toString a ++ toString b.
Proof.
  intros Ha. unfold toString.
  assert (Ha' : Forall (fun n => (n <= 0x7F)%N) (Byte.to_N <$> a)).
  { apply Forall_fmap. eapply Forall_impl; [exact Ha|].
    intros x Hx. apply N.leb_le. exact Hx. }
  rewrite <- (app_nil_r a) at 2.
  rewrite !map_app.
  rewrite !(utf8Decode_ascii _ _ Ha'), !(flat_map_utf16_ascii _ _ Ha').
  simpl. rewrite app_nil_r. reflexivity.
Qed.

Lemma toString_concat_ascii (chunks : list Buffer) :
  Forall (fun x => isAscii x = true) (concat chunks) ->
  toString (concat chunks) = concat (toString <$> chunks).
Proof.
  induction chunks as [|d ds IH]; simpl; [reflexivity|].
  intros H. apply Forall_app in H as [Hd Hds].
  rewrite toString_app_ascii by exact Hd. rewrite IH by exact Hds.
  reflexivity.
Qed.

(** Two chunkings that decode to the same text give the same frames, in
    the same order, and the same carry-over. *)
Lemma feed_same_text (chunks1 chunks2 : list Buffer) (t : StdioTransport) :
  LF ∉ buffer t ->
  concat (toString <$> chunks1) = concat (toString <$> chunks2) ->
  feed chunks1 t = feed chunks2 t.
Proof.
  intros Hbuf Htext. rewrite !feed_spec by exact Hbuf.
  cbv zeta. rewrite Htext. reflexivity.
Qed.

(** Chunk-boundary invariance for a stream of ASCII bytes: every way of
    cutting it into chunks gives the same frames. *)
Lemma feed_chunking_ascii (chunks1 chunks2 : list Buffer) (t : StdioTransport) :
  LF ∉ buffer t ->
  concat chunks1 = concat chunks2 ->
  Forall (fun x => isAscii x = true) (concat chunks1) ->
  feed chunks1 t = feed chunks2 t.
Proof.
  intros Hbuf Hsame Hascii. apply feed_same_text; [exact Hbuf|].
  rewrite <- !toString_concat_ascii; [rewrite Hsame; reflexivity| |exact Hascii].
  rewrite <- Hsame. exact Hascii.
Qed.

(** The scenario of the specification: two JSON lines, the chunk
    boundary inside the second one. *)
Example feed_two_chunks :
  let t := feed [jsonBytes "{'a':1}" ++ [x0a] ++ jsonBytes "{'";
                 jsonBytes "b':2}" ++ [x0a]]
             (newStdioTransport None) in
  emitted t = [Message (json "{'a':1}"); Message (json "{'b':2}")]
  /\ buffer t = [].
Proof. vm_compute. split; reflexivity. Qed.

(** C3 (chunk-boundary invariance), at a chunk boundary inside a
    character: the JSON line with the two-byte character U+00E9 in it, fed
    whole, is published as it was written; the same bytes cut between the
    two bytes of that character are published with two U+FFFD in its
    place, because [handleData] decodes each chunk on its own. The two
    chunkings of one byte stream give different frames. *)
Theorem C3_chunk_boundary_inside_character :
  let t0 := newStdioTransport None in
  let whole := [jsonBytes "{'k':'" ++ [xc3; xa9] ++ jsonBytes "'}" ++ [x0a]] in
  let cut := [jsonBytes "{'k':'" ++ [xc3];
              [xa9] ++ jsonBytes "'}" ++ [x0a]] in
  concat whole = concat cut
  /\ emitted (feed whole t0)
     = [Message (json "{'k':'" ++ [0xE9%N] ++ json "'}")]
  /\ emitted (feed cut t0)
     = [Message (json "{'k':'" ++ [0xFFFD%N; 0xFFFD%N] ++ json "'}")]
  /\ emitted (feed whole t0) <> emitted (feed cut t0).
Proof.
  cbv zeta. split; [reflexivity|].
  assert (Hwhole : emitted (feed [jsonBytes "{'k':'" ++ [xc3; xa9]
                                   ++ jsonBytes "'}" ++ [x0a]]
                              (newStdioTransport None))
                   = [Message (json "{'k':'" ++ [0xE9%N] ++ json "'}")])
    by (vm_compute; reflexivity).
  assert (Hcut : emitted (feed [jsonBytes "{'k':'" ++ [xc3];
                                [xa9] ++ jsonBytes "'}" ++ [x0a]]
                            (newStdioTransport None))
                 = [Message (json "{'k':'" ++ [0xFFFD%N; 0xFFFD%N]
                             ++ json "'}")])
    by (vm_compute; reflexivity).
  split; [exact Hwhole|]. split; [exact Hcut|].
  rewrite Hwhole, Hcut. vm_compute. discriminate.
Qed.

(** C5 (the feed operation of the line framer): [handleData] appends the
    decoded chunk to the carry-over; that text is a sequence of complete
    lines, each ended by a newline, followed by a tail without newline;
    the call publishes, in order, the trimmed lines that are not empty
    and nothing else, and leaves the tail in the buffer, which therefore
    holds no newline; [cleanup] empties the buffer, and so does
    [disconnect] whenever there is a process handle to drop. *)
Theorem C5_handleData_frames (data : Buffer) (t : StdioTransport) :
  let t' := handleData data t in
  (exists (lines : list jsstring) (tail : jsstring),
      buffer t ++ toString data
      = concat ((fun l => l ++ [LF]) <$> lines) ++ tail
      /\ Forall (fun l => LF ∉ l) lines
      /\ (LF ∉ tail)
      /\ emitted t'
         = emitted t
           ++ (Message <$> filter (fun l => nonEmpty l = true) (trim <$> lines))
      /\ buffer t' = tail)
  /\ (LF ∉ buffer t')
  /\ buffer (cleanup t') = []
  /\ buffer (snd (disconnect t'))
     = match process t' with Some _ => [] | None => buffer t' end.
Proof.
  cbv zeta. rewrite handleData_spec.
  destruct (splitLines_sound (buffer t ++ toString data)) as (Hglue & Hl & Ht).
  split; [|split; [|split]].
  - exists (splitLines (buffer t ++ toString data)).1,
           (splitLines (buffer t ++ toString data)).2.
    repeat split; try assumption; destruct t; reflexivity.
  - destruct t; exact Ht.
  - reflexivity.
  - unfold disconnect.
    destruct (process (setEmitted _ _)); reflexivity.
Qed.

(** ** The connection race *)

#[local] Instance callChange_refl : Reflexive callChange := change_none.
#[local] Instance callChange_trans : Transitive callChange := change_then.

#[local] Instance callsChange_refl : Reflexive callsChange.
Proof. intros t. unfold callsChange. reflexivity. Qed.

#[local] Instance callsChange_trans : Transitive callsChange.
Proof. intros t1 t2 t3. unfold callsChange. apply transitivity. Qed.

Lemma callChange_ok (c c' : ConnectCall) :
  callChange c c' -> callOk c -> callOk c'.
Proof.
  induction 1 as [c|c ch|c|c|c e Hs|c Hs Hd|c1 c2 c3 _ IH1 _ IH2];
    intros Hok; auto.
  - destruct Hok as [[_ Hp]|[Hs' _]]; [|congruence].
    right. split; [reflexivity|]. exists (Rejected e). simpl. rewrite Hp.
    reflexivity.
  - destruct Hok as [[_ Hp]|[Hs' _]]; [|congruence].
    right. split; [reflexivity|]. exists Resolved. simpl. rewrite Hp.
    reflexivity.
Qed.


Lemma callChange_cannotResolve (c c' : ConnectCall) :
  callChange c c' -> cannotResolve c -> cannotResolve c'.
Proof.
  unfold cannotResolve.
  induction 1 as [c|c ch|c|c|c e Hs|c Hs Hd|c1 c2 c3 _ IH1 _ IH2];
    intros [Hd' Hp]; auto; try congruence.
  split; [exact Hd'|]. simpl. rewrite elem_of_app, list_elem_of_singleton.
  intros [?|?]; [contradiction|discriminate].
Qed.

(** *** What each handler does to the calls *)

Lemma callsChange_same (t t1 t2 : StdioTransport) :
  calls t2 = calls t1 -> callsChange t t1 -> callsChange t t2.
Proof. unfold callsChange. intros ->. auto. Qed.

Lemma updateCall_change (k : nat) (f : ConnectCall -> ConnectCall)
    (t : StdioTransport) :
  (forall c, calls t !! k = Some c -> callChange c (f c)) ->
  callsChange t (updateCall k f t).
Proof.
  intros Hf. unfold callsChange, updateCall. simpl.
  apply Forall2_alter_r; [reflexivity|].
  intros x y Hx Hy Hxy. etransitivity; [exact Hxy|]. apply Hf, Hy.
Qed.

Lemma updateChild_change (k : nat) (f : ChildProcess -> ChildProcess)
    (t : StdioTransport) :
  callsChange t (updateChild k f t).
Proof. apply updateCall_change. intros c _. apply change_child. Qed.

Lemma clearConnectionDelay_change (k : nat) (t : StdioTransport) :
  callsChange t (clearConnectionDelay k t).
Proof. apply updateCall_change. intros c _. apply change_delay. Qed.

Lemma clearTimeoutTimer_change (k : nat) (t : StdioTransport) :
  callsChange t (clearTimeoutTimer k t).
Proof. apply updateCall_change. intros c _. apply change_timeout. Qed.

Lemma rejectOnce_change (k : nat) (e : Error) (t : StdioTransport) :
  callsChange t (rejectOnce k e t).
Proof.
  unfold rejectOnce. destruct (calls t !! k) as [c|] eqn:Hk; [|reflexivity].
  destruct (settled c) eqn:Hs; [reflexivity|].
  apply (updateCall_change k (settle (Rejected e)) t).
  intros c' Hc'. apply change_reject. congruence.
Qed.

Lemma resolveOnce_change (k : nat) (t : StdioTransport) :
  (forall c, calls t !! k = Some c -> connectionDelay c = true) ->
  callsChange t (resolveOnce k t).
Proof.
  intros Hpending. unfold resolveOnce.
  destruct (calls t !! k) as [c|] eqn:Hk; [|reflexivity].
  destruct (settled c) eqn:Hs; [reflexivity|].
  apply (updateCall_change k (settle Resolved) t).
  intros c' Hc'. apply change_resolve; [congruence|].
  apply Hpending. congruence.
Qed.

Lemma cleanup_change (t : StdioTransport) : callsChange t (cleanup t).
Proof.
  unfold cleanup. destruct (process t) as [j|].
  - apply (callsChange_same _ (updateChild j (kill "SIGTERM") t));
      [reflexivity|apply updateChild_change].
  - apply (callsChange_same _ t); reflexivity.
Qed.

Lemma handleData_calls (data : Buffer) (t : StdioTransport) :
  calls (handleData data t) = calls t.
Proof. rewrite handleData_spec. reflexivity. Qed.

Lemma handleData_change (data : Buffer) (t : StdioTransport) :
  callsChange t (handleData data t).
Proof. unfold callsChange. rewrite handleData_calls. reflexivity. Qed.

Lemma emitError_change (e : Error) (t : StdioTransport) :
  callsChange t (emitError e t).2.
Proof.
  apply (callsChange_same _ t); [|reflexivity].
  unfold emitError. destruct (errorListeners t); reflexivity.
Qed.

Lemma onConnectionDelay_change (k : nat) (t : StdioTransport) :
  (forall c, calls t !! k = Some c -> connectionDelay c = true) ->
  callsChange t (onConnectionDelay k t).
Proof.
  intros Hpending. unfold onConnectionDelay.
  destruct (calls t !! k) as [[[ch|] d tm st pr]|] eqn:Hk; try reflexivity.
  destruct (_ && _).
  - apply resolveOnce_change. intros c Hc. apply Hpending. congruence.
  - destruct (exitCode ch); [|reflexivity].
    destruct (negb st); [apply rejectOnce_change|reflexivity].
Qed.

Lemma onTimeout_change (k : nat) (t : StdioTransport) :
  callsChange t (onTimeout k t).
Proof.
  unfold onTimeout.
  etransitivity; [apply clearConnectionDelay_change|].
  etransitivity; [apply cleanup_change|apply rejectOnce_change].
Qed.

Lemma clearTimers_change (k : nat) (t : StdioTransport) :
  callsChange t (clearConnectionDelay k (clearTimeoutTimer k t)).
Proof.
  etransitivity; [apply clearTimeoutTimer_change|].
  apply clearConnectionDelay_change.
Qed.

Lemma onStdoutData_change (k : nat) (data : Buffer) (t : StdioTransport) :
  callsChange t (onStdoutData k data t).
Proof.
  unfold onStdoutData.
  etransitivity; [apply clearTimers_change|apply handleData_change].
Qed.

Lemma onStderrData_change (data : Buffer) (t : StdioTransport) :
  callsChange t (onStderrData data t).
Proof.
  apply (callsChange_same _ t); [|reflexivity].
  unfold onStderrData. destruct (trim (toString data)); reflexivity.
Qed.

Lemma onProcessError_change (k : nat) (e : Error) (t : StdioTransport) :
  callsChange t (onProcessError k e t).2.
Proof.
  unfold onProcessError.
  etransitivity; [apply (clearTimers_change k)|].
  set (t1 := clearConnectionDelay k (clearTimeoutTimer k t)).
  destruct (_ && connected t1).
  - pose proof (emitError_change e t1) as He.
    destruct (emitError e t1) as [[|x] t2]; simpl in *.
    + etransitivity; [exact He|apply rejectOnce_change].
    + exact He.
  - simpl. apply rejectOnce_change.
Qed.

Lemma onProcessClose_change (k : nat) (code : option Z)
    (signal : option string) (t : StdioTransport) :
  callsChange t (onProcessClose k code signal t).
Proof.
  unfold onProcessClose.
  etransitivity; [apply (clearTimers_change k)|].
  set (t1 := clearConnectionDelay k (clearTimeoutTimer k t)).
  destruct (calls t1 !! k) as [c|]; [|reflexivity].
  destruct (negb (settled c)); [apply rejectOnce_change|].
  apply (callsChange_same _ t1); reflexivity.
Qed.

Lemma onProcessExit_change (k : nat) (t : StdioTransport) :
  callsChange t (onProcessExit k t).
Proof.
  unfold onProcessExit.
  apply (callsChange_same _ (clearConnectionDelay k t)); [reflexivity|].
  apply clearConnectionDelay_change.
Qed.

Lemma send_change (message : jsstring) (w : option Error) (t : StdioTransport) :
  callsChange t (send message w t).2.
Proof.
  unfold send.
  destruct (process t) as [j|]; [|apply emitError_change].
  destruct (connected t); [|apply emitError_change].
  destruct w; [apply emitError_change|apply updateChild_change].
Qed.

Lemma disconnect_change (t : StdioTransport) :
  callsChange t (disconnect t).2.
Proof.
  unfold disconnect. destruct (process t); [apply cleanup_change|reflexivity].
Qed.

(** A new call starts unsettled, or rejected when [spawn] threw. *)
Lemma connect_calls (spawnThrows : option Error) (t : StdioTransport) :
  exists new, calls (connect spawnThrows t).2 = calls t ++ new
              /\ Forall callOk new.
Proof.
  unfold connect. destruct (connected t).
  - exists []. rewrite app_nil_r. split; [reflexivity|constructor].
  - destruct spawnThrows as [e|]; simpl.
    + exists [settle (Rejected e) (mkCall None false false false [])].
      split.
      * unfold rejectOnce. simpl.
        rewrite list_lookup_middle by reflexivity. simpl.
        unfold updateCall. simpl.
        rewrite <- (Nat.add_0_r (length (calls t))).
        rewrite alter_app_r. reflexivity.
      * apply Forall_singleton. right. split; [reflexivity|].
        exists (Rejected e). reflexivity.
    + eexists. split; [reflexivity|].
      apply Forall_singleton. left. split; reflexivity.
Qed.

(** One turn of the event loop changes each call as [callChange] allows,
    and adds at most well-formed calls. *)
Lemma step_calls (t : StdioTransport) (e : Event) :
  exists old new,
    calls (step t e) = old ++ new
    /\ Forall2 callChange (calls t) old
    /\ Forall callOk new.
Proof.
  assert (Hno : forall t', callsChange t t' ->
            exists old new, calls t' = old ++ new
              /\ Forall2 callChange (calls t) old /\ Forall callOk new).
  { intros t' H. exists (calls t'), []. rewrite app_nil_r.
    repeat split; [exact H|constructor]. }
  destruct e as [sp| |m w| |k|k|k d|k d|k err|k code sg|k code sg]; simpl.
  - destruct (connect_calls sp t) as (new & Hc & Hnew).
    exists (calls t), new. repeat split; [exact Hc|reflexivity|exact Hnew].
  - apply Hno, disconnect_change.
  - apply Hno, send_change.
  - apply Hno. reflexivity.
  - apply Hno. destruct (calls t !! k) as [c|] eqn:Hk; [|reflexivity].
    destruct (connectionDelay c) eqn:Hd; [|reflexivity].
    etransitivity; [apply onConnectionDelay_change|
                    apply clearConnectionDelay_change].
    intros c' Hc'. congruence.
  - apply Hno. destruct (calls t !! k) as [c|]; [|reflexivity].
    destruct (timeout c); [|reflexivity].
    etransitivity; [apply onTimeout_change|apply clearTimeoutTimer_change].
  - apply Hno. destruct (hasChild k t); [|reflexivity].
    apply onStdoutData_change.
  - apply Hno. destruct (hasChild k t); [|reflexivity].
    apply onStderrData_change.
  - apply Hno. destruct (hasChild k t); [|reflexivity].
    pose proof (onProcessError_change k err t) as H.
    destruct (onProcessError k err t) as [[|x] t1]; simpl in H; [exact H|].
    apply (callsChange_same _ t1); [reflexivity|exact H].
  - apply Hno. destruct (hasChild k t); [|reflexivity].
    apply onProcessClose_change.
  - apply Hno. destruct (hasChild k t); [|reflexivity].
    etransitivity; [apply (updateChild_change k (recordExit code sg))|].
    apply onProcessExit_change.
Qed.

Lemma step_lookup (t : StdioTransport) (e : Event) (k : nat) (c : ConnectCall) :
  calls t !! k = Some c ->
  exists c', calls (step t e) !! k = Some c' /\ callChange c c'.
Proof.
  intros Hk. destruct (step_calls t e) as (old & new & Hcalls & Hold & _).
  destruct (Forall2_lookup_l _ _ _ _ _ Hold Hk) as (c' & Hc' & Hch).
  exists c'. split; [|exact Hch].
  rewrite Hcalls. apply lookup_app_l_Some. exact Hc'.
Qed.

Lemma run_lookup (events : list Event) (t : StdioTransport) (k : nat)
    (c : ConnectCall) :
  calls t !! k = Some c ->
  exists c', calls (run t events) !! k = Some c' /\ callChange c c'.
Proof.
  revert t c. induction events as [|e events IH]; intros t c Hk; simpl.
  - exists c. split; [exact Hk|reflexivity].
  - destruct (step_lookup t e k c Hk) as (c1 & Hc1 & Hch1).
    destruct (IH _ _ Hc1) as (c2 & Hc2 & Hch2).
    exists c2. split; [exact Hc2|]. etransitivity; eassumption.
Qed.

Lemma step_callOk (t : StdioTransport) (e : Event) :
  Forall callOk (calls t) -> Forall callOk (calls (step t e)).
Proof.
  intros Hok. destruct (step_calls t e) as (old & new & -> & Hold & Hnew).
  apply Forall_app. split; [|exact Hnew].
  clear Hnew. induction Hold as [|c c' l l' Hc _ IH]; [constructor|].
  inversion Hok; subst. constructor; [|auto].
  eapply callChange_ok; eassumption.
Qed.

Lemma run_callOk (events : list Event) (t : StdioTransport) :
  Forall callOk (calls t) -> Forall callOk (calls (run t events)).
Proof.
  revert t. induction events as [|e events IH]; intros t Hok; simpl;
    [exact Hok|]. apply IH, step_callOk, Hok.
Qed.



(** *** Data before the grace timer *)

Lemma hasChild_lookup (k : nat) (t : StdioTransport) :
  hasChild k t = true ->
  exists c ch, calls t !! k = Some c /\ childProcess c = Some ch.
Proof.
  unfold hasChild. destruct (calls t !! k) as [[[ch|] d tm st pr]|];
    try discriminate.
  intros _. eexists _, ch. split; reflexivity.
Qed.

Lemma lookup_hasChild (k : nat) (t : StdioTransport) (c : ConnectCall)
    (ch : ChildProcess) :
  calls t !! k = Some c -> childProcess c = Some ch -> hasChild k t = true.
Proof.
  unfold hasChild. intros -> Hch. destruct c; simpl in *. rewrite Hch.
  reflexivity.
Qed.

(** What the stdout listener leaves of the transport. *)
Lemma onStdoutData_state (k : nat) (data : Buffer) (t : StdioTransport) :
  let t' := onStdoutData k data t in
  calls t'
  = alter (setConnectionDelay false) k (alter (setTimeout false) k (calls t))
  /\ emitted t' = emitted t ++ (Message <$> frames (buffer t ++ toString data))
  /\ buffer t' = carryOver (buffer t ++ toString data)
  /\ connected t' = connected t
  /\ process t' = process t.
Proof.
  cbv zeta. unfold onStdoutData. rewrite handleData_spec.
  repeat split.
Qed.

(** C1 (stdout data before the grace timer), on the code: after
    [connect()], a first chunk of stdout data cancels both timers and is
    fed to the framer, whose frames are published; but [resolveOnce] is
    not called: the call stays unsettled, the transport is not connected,
    and since the grace timer is the only caller of [resolveOnce], no
    continuation of the run resolves the connect operation. *)
Theorem C1_early_stdout_data_never_resolves (data : Buffer)
    (events : list Event) :
  let t := step spawning (StdoutData 0 data) in
  calls t = [mkCall (Some spawned) false false false []]
  /\ connected t = false
  /\ isConnected t = false
  /\ emitted t = (Message <$> frames (toString data))
  /\ buffer t = carryOver (toString data)
  /\ exists c, calls (run t events) !! 0%nat = Some c
               /\ Resolved ∉ promise c.
Proof.
  cbv zeta.
  change (step spawning (StdoutData 0 data))
    with (onStdoutData 0 data spawning).
  destruct (onStdoutData_state 0 data spawning) as (Hc & He & Hb & Hn & Hp).
  change (calls spawning) with [mkCall (Some spawned) true true false []] in Hc.
  change (alter (setConnectionDelay false) 0%nat
            (alter (setTimeout false) 0%nat
               [mkCall (Some spawned) true true false []]))
    with [mkCall (Some spawned) false false false []] in Hc.
  repeat split; try assumption.
  - unfold isConnected. rewrite Hn. reflexivity.
  - destruct (run_lookup events (onStdoutData 0 data spawning) 0%nat
                (mkCall (Some spawned) false false false []))
      as (c & Hk & Hch); [rewrite Hc; reflexivity|].
    exists c. split; [exact Hk|].
    apply (callChange_cannotResolve _ _ Hch).
    split; [reflexivity|apply not_elem_of_nil].
Qed.

(** The scenario of C1 on one JSON line: it is published, and the
    connect operation is still pending. *)
Example early_data_is_published :
  let t := step spawning (StdoutData 0 (jsonBytes "{'a':1}" ++ [x0a])) in
  emitted t = [Message (json "{'a':1}")]
  /\ (settled <$> calls t) = [false]
  /\ (promise <$> calls t) = [[]].
Proof. vm_compute. repeat split. Qed.

(** *** Reading the state after a handler *)

Lemma rejectOnce_unsettled (k : nat) (e : Error) (t : StdioTransport)
    (c : ConnectCall) :
  calls t !! k = Some c -> settled c = false ->
  rejectOnce k e t = setConnected false (updateCall k (settle (Rejected e)) t).
Proof. intros Hk Hs. unfold rejectOnce. rewrite Hk, Hs. reflexivity. Qed.

Lemma cleanup_state (t : StdioTransport) :
  process (cleanup t) = None
  /\ connected (cleanup t) = false
  /\ buffer (cleanup t) = []
  /\ emitted (cleanup t) = emitted t
  /\ connectionTimeout (cleanup t) = connectionTimeout t
  /\ calls (cleanup t)
     = match process t with
       | Some j =>
           alter (fun c => setChild (kill "SIGTERM" <$> childProcess c) c) j
             (calls t)
       | None => calls t
       end.
Proof.
  unfold cleanup. destruct (process t) eqn:Hp; simpl; rewrite ?Hp;
    repeat split; reflexivity.
Qed.

Lemma cleanup_lookup (t : StdioTransport) (k : nat) (c : ConnectCall) :
  calls t !! k = Some c ->
  exists c', calls (cleanup t) !! k = Some c'
             /\ connectionDelay c' = connectionDelay c
             /\ timeout c' = timeout c
             /\ settled c' = settled c
             /\ promise c' = promise c.
Proof.
  intros Hk. destruct (cleanup_state t) as (_ & _ & _ & _ & _ & ->).
  destruct (process t) as [j|]; [|exists c; repeat split; exact Hk].
  destruct (decide (j = k)) as [->|Hne].
  - rewrite list_lookup_alter_eq, Hk. eexists. split; [reflexivity|].
    repeat split.
  - rewrite list_lookup_alter_ne by exact Hne. exists c. repeat split.
    exact Hk.
Qed.

Lemma cleanup_childOf (t : StdioTransport) (j : nat) :
  process t = Some j ->
  childOf j (cleanup t) = kill "SIGTERM" <$> childOf j t.
Proof.
  intros Hp. unfold childOf.
  destruct (cleanup_state t) as (_ & _ & _ & _ & _ & ->). rewrite Hp.
  rewrite list_lookup_alter_eq. destruct (calls t !! j) as [c|]; reflexivity.
Qed.

(** What the timeout callback leaves of the transport when it finds the
    call unsettled. *)
Lemma onTimeout_unsettled (t : StdioTransport) (k : nat) (c : ConnectCall) :
  calls t !! k = Some c -> settled c = false ->
  let t' := onTimeout k t in
  process t' = None /\ connected t' = false /\ buffer t' = []
  /\ emitted t' = emitted t
  /\ (exists c', calls t' !! k = Some c'
        /\ settled c' = true
        /\ promise c'
           = promise c ++ [Rejected (ConnectionTimeout (connectionTimeout t))]
        /\ connectionDelay c' = false)
  /\ match process t with
     | Some j => childOf j t' = kill "SIGTERM" <$> childOf j t
     | None => True
     end.
Proof.
  intros Hk Hs. cbv zeta. unfold onTimeout.
  set (t1 := clearConnectionDelay k t).
  assert (Hk1 : calls t1 !! k = Some (setConnectionDelay false c)).
  { unfold t1, clearConnectionDelay, updateCall. simpl.
    rewrite list_lookup_alter_eq, Hk. reflexivity. }
  destruct (cleanup_lookup t1 k _ Hk1) as (c2 & Hk2 & Hd2 & Ht2 & Hs2 & Hp2).
  destruct (cleanup_state t1) as (Hproc & Hconn & Hbuf & Hem & Hcfg & _).
  rewrite (rejectOnce_unsettled k _ (cleanup t1) c2 Hk2) by (rewrite Hs2; exact Hs).
  unfold setConnected, updateCall, setCalls.
  cbn [process connected buffer emitted calls connectionTimeout].
  rewrite Hcfg.
  repeat split; try assumption.
  - rewrite list_lookup_alter_eq, Hk2. eexists. split; [reflexivity|].
    simpl. rewrite Hp2, Hd2. repeat split.
  - destruct (process t) as [j|] eqn:Hp; [|exact I].
    unfold childOf. cbn [calls].
    assert (Hc : forall f, (alter (settle f) k (calls (cleanup t1)) !! j)
                           ≫= childProcess
                           = calls (cleanup t1) !! j ≫= childProcess).
    { intros f. destruct (decide (k = j)) as [->|Hne].
      - rewrite list_lookup_alter_eq.
        destruct (calls (cleanup t1) !! j); reflexivity.
      - rewrite list_lookup_alter_ne by exact Hne. reflexivity. }
    rewrite Hc.
    change (calls (cleanup t1) !! j ≫= childProcess)
      with (childOf j (cleanup t1)).
    rewrite cleanup_childOf by exact Hp.
    f_equal. unfold childOf, t1, clearConnectionDelay, updateCall. simpl.
    destruct (decide (k = j)) as [->|Hne].
    + rewrite list_lookup_alter_eq. destruct (calls t !! j); reflexivity.
    + rewrite list_lookup_alter_ne by exact Hne. reflexivity.
Qed.

Lemma clearTimeoutTimer_childOf (k j : nat) (t : StdioTransport) :
  childOf j (clearTimeoutTimer k t) = childOf j t.
Proof.
  unfold childOf, clearTimeoutTimer, updateCall. cbn [calls setCalls].
  destruct (decide (k = j)) as [->|Hne].
  - rewrite list_lookup_alter_eq. destruct (calls t !! j); reflexivity.
  - rewrite list_lookup_alter_ne by exact Hne. reflexivity.
Qed.

(** C6 (connection timeout): when the timeout timer of an unsettled call
    fires, the transport drops its process handle after sending SIGTERM to
    that process, empties the buffer, clears the connected flag, cancels
    the grace timer, and rejects the connect operation, once, with the
    timeout error that carries the configured [connectionTimeout]. *)
Theorem C6_connection_timeout_rejects (t : StdioTransport) (k : nat)
    (c : ConnectCall) :
  calls t !! k = Some c -> timeout c = true -> settled c = false ->
  let t' := step t (TimeoutTimer k) in
  process t' = None /\ buffer t' = [] /\ connected t' = false
  /\ isConnected t' = false
  /\ (exists c', calls t' !! k = Some c'
        /\ settled c' = true
        /\ promise c'
           = promise c ++ [Rejected (ConnectionTimeout (connectionTimeout t))]
        /\ connectionDelay c' = false
        /\ timeout c' = false)
  /\ match process t with
     | Some j => childOf j t' = kill "SIGTERM" <$> childOf j t
     | None => True
     end.
Proof.
  intros Hk Htm Hs. cbv zeta. cbn [step]. rewrite Hk, Htm.
  destruct (onTimeout_unsettled t k c Hk Hs)
    as (Hproc & Hconn & Hbuf & _ & (c1 & Hk1 & Hs1 & Hp1 & Hd1) & Hkill).
  repeat split; try assumption.
  - unfold isConnected. cbn [connected clearTimeoutTimer updateCall setCalls].
    rewrite Hconn. reflexivity.
  - exists (setTimeout false c1).
    unfold clearTimeoutTimer, updateCall. cbn [calls setCalls].
    rewrite list_lookup_alter_eq, Hk1. repeat split; assumption.
  - destruct (process t) as [j|]; [|exact I].
    rewrite clearTimeoutTimer_childOf. exact Hkill.
Qed.

(** The scenario of the specification: [connectionTimeout = 50], and a
    process that stays silent; the timeout timer fires first. *)
Lemma C6_connection_timeout_rejects_witness :
  let t := step (newStdioTransport (Some 50)) (CallConnect None) in
  let c := mkCall (Some spawned) true true false [] in
  let t' := step t (TimeoutTimer 0) in
  (calls t !! 0%nat = Some c /\ timeout c = true /\ settled c = false)
  /\ process t' = None /\ buffer t' = [] /\ connected t' = false
  /\ isConnected t' = false
  /\ (exists c', calls t' !! 0%nat = Some c'
        /\ settled c' = true
        /\ promise c' = promise c ++ [Rejected (ConnectionTimeout 50)]
        /\ connectionDelay c' = false
        /\ timeout c' = false)
  /\ match process t with
     | Some j => childOf j t' = kill "SIGTERM" <$> childOf j t
     | None => True
     end.
Proof.
  cbv zeta. split; [repeat split|].
  apply (C6_connection_timeout_rejects
           (step (newStdioTransport (Some 50)) (CallConnect None)) 0%nat
           (mkCall (Some spawned) true true false []));
    reflexivity.
Defined.

Example timeout_kills_the_process :
  let t := run (newStdioTransport (Some 50))
             [CallConnect None; TimeoutTimer 0] in
  calls t = [mkCall (Some (mkChild true None None ["SIGTERM"%string] []))
               false false true [Rejected (ConnectionTimeout 50)]].
Proof. reflexivity. Qed.

Lemma clearTimers_lookup (k : nat) (t : StdioTransport) (c : ConnectCall) :
  calls t !! k = Some c ->
  calls (clearConnectionDelay k (clearTimeoutTimer k t)) !! k
  = Some (setConnectionDelay false (setTimeout false c)).
Proof.
  intros Hk. unfold clearConnectionDelay, clearTimeoutTimer, updateCall.
  cbn [calls setCalls]. rewrite !list_lookup_alter_eq, Hk. reflexivity.
Qed.

(** Rejecting an unsettled call after its timers were cancelled. *)
Lemma reject_after_clearTimers (k : nat) (e : Error) (t : StdioTransport)
    (c : ConnectCall) :
  calls t !! k = Some c -> settled c = false ->
  let t' := rejectOnce k e (clearConnectionDelay k (clearTimeoutTimer k t)) in
  connected t' = false /\ isConnected t' = false
  /\ emitted t' = emitted t /\ uncaught t' = uncaught t
  /\ exists c', calls t' !! k = Some c'
       /\ settled c' = true
       /\ promise c' = promise c ++ [Rejected e]
       /\ connectionDelay c' = false /\ timeout c' = false.
Proof.
  intros Hk Hs. cbv zeta.
  pose proof (clearTimers_lookup k t c Hk) as Hk1.
  rewrite (rejectOnce_unsettled k e _ _ Hk1) by exact Hs.
  repeat split.
  eexists. unfold setConnected, updateCall. cbn [calls setCalls].
  rewrite list_lookup_alter_eq, Hk1. split; [reflexivity|]. repeat split.
Qed.

(** C7 (spawn error and close before settlement): when the child process
    of an unsettled call reports an error, the connect operation is
    rejected with that error; when its streams close instead, it is
    rejected with the error that carries the exit code and the signal. In
    both cases the connected flag is cleared, [isConnected()] is false,
    and nothing goes to the listeners of the transport. *)
Theorem C7_error_or_close_before_settlement (t : StdioTransport) (k : nat)
    (c : ConnectCall) (ch : ChildProcess) (err : Error) (code : option Z)
    (signal : option string) :
  calls t !! k = Some c -> childProcess c = Some ch -> settled c = false ->
  (let t' := step t (ProcessError k err) in
   connected t' = false /\ isConnected t' = false
   /\ emitted t' = emitted t /\ uncaught t' = uncaught t
   /\ exists c', calls t' !! k = Some c'
        /\ settled c' = true
        /\ promise c' = promise c ++ [Rejected err]
        /\ connectionDelay c' = false /\ timeout c' = false)
  /\ (let t' := step t (ProcessClose k code signal) in
      connected t' = false /\ isConnected t' = false
      /\ emitted t' = emitted t /\ uncaught t' = uncaught t
      /\ exists c', calls t' !! k = Some c'
           /\ settled c' = true
           /\ promise c'
              = promise c ++ [Rejected (ExitedDuringConnection code signal)]
           /\ connectionDelay c' = false /\ timeout c' = false).
Proof.
  intros Hk Hch Hs. cbv zeta. cbn [step].
  rewrite (lookup_hasChild k t c ch Hk Hch).
  pose proof (clearTimers_lookup k t c Hk) as Hk1.
  split.
  - unfold onProcessError. rewrite Hk1.
    cbn [settled setConnectionDelay setTimeout]. rewrite Hs.
    cbn [andb]. apply reject_after_clearTimers; assumption.
  - unfold onProcessClose. rewrite Hk1.
    cbn [settled setConnectionDelay setTimeout]. rewrite Hs.
    cbn [negb]. apply reject_after_clearTimers; assumption.
Qed.

(** The scenarios of the specification: a command that does not exist,
    and a process that ends with code 1 before the grace timer fires. *)
Lemma C7_error_or_close_before_settlement_witness :
  let c := mkCall (Some spawned) true true false [] in
  let enoent := RuntimeError "spawn nonexistent-command-xyz ENOENT" in
  (calls spawning !! 0%nat = Some c /\ childProcess c = Some spawned
   /\ settled c = false)
  /\ (let t' := step spawning (ProcessError 0 enoent) in
      connected t' = false /\ isConnected t' = false
      /\ emitted t' = emitted spawning /\ uncaught t' = uncaught spawning
      /\ exists c', calls t' !! 0%nat = Some c'
           /\ settled c' = true
           /\ promise c' = promise c ++ [Rejected enoent]
           /\ connectionDelay c' = false /\ timeout c' = false)
  /\ (let t' := step spawning (ProcessClose 0 (Some 1) None) in
      connected t' = false /\ isConnected t' = false
      /\ emitted t' = emitted spawning /\ uncaught t' = uncaught spawning
      /\ exists c', calls t' !! 0%nat = Some c'
           /\ settled c' = true
           /\ promise c'
              = promise c ++ [Rejected (ExitedDuringConnection (Some 1) None)]
           /\ connectionDelay c' = false /\ timeout c' = false).
Proof.
  cbv zeta. split; [repeat split|].
  apply (C7_error_or_close_before_settlement spawning 0%nat
           (mkCall (Some spawned) true true false []) spawned
           (RuntimeError "spawn nonexistent-command-xyz ENOENT")
           (Some 1) None); reflexivity.
Defined.

(** ** The methods *)

Lemma updateChild_childOf (j : nat) (f : ChildProcess -> ChildProcess)
    (t : StdioTransport) :
  childOf j (updateChild j f t) = f <$> childOf j t.
Proof.
  unfold childOf, updateChild, updateCall. cbn [calls setCalls].
  rewrite list_lookup_alter_eq. destruct (calls t !! j); reflexivity.
Qed.




Example send_writes_one_line :
  let t := step (step established CallOnError)
             (CallSend (json "{'id':1}") None) in
  (stdinWrites <$> childOf 0 t) = Some [json "{'id':1}" ++ [LF]]
  /\ emitted t = [].
Proof. vm_compute. split; reflexivity. Qed.

(** C9 (disconnect): [disconnect()] never throws; without a process
    handle it leaves the transport as it is; with one it sends SIGTERM to
    that process, drops the handle, clears the connected flag and empties
    the buffer, delivers nothing to the listeners, and does not wait: the
    process object records no exit; calling it a second time changes
    nothing. *)
Theorem C9_disconnect_idempotent (t : StdioTransport) :
  (disconnect t).1 = Normal
  /\ disconnect (disconnect t).2 = (Normal, (disconnect t).2)
  /\ match process t with
     | None => (disconnect t).2 = t
     | Some j =>
         let t' := (disconnect t).2 in
         process t' = None /\ connected t' = false /\ buffer t' = []
         /\ isConnected t' = false
         /\ emitted t' = emitted t
         /\ childOf j t' = kill "SIGTERM" <$> childOf j t
         /\ (running <$> childOf j t') = (running <$> childOf j t)
     end.
Proof.
  unfold disconnect. destruct (process t) as [j|] eqn:Hp.
  - destruct (cleanup_state t) as (Hproc & Hconn & Hbuf & Hem & _ & _).
    cbn [fst snd]. cbv zeta. rewrite Hproc. repeat split; try assumption.
    + apply cleanup_childOf, Hp.
    + rewrite (cleanup_childOf t j Hp).
      destruct (childOf j t) as [ch|]; [|reflexivity].
      simpl. f_equal. unfold kill. destruct (running ch) eqn:Hr; [|exact Hr].
      unfold running in *. simpl. exact Hr.
  - cbn [fst snd]. rewrite Hp. repeat split.
Qed.

Example disconnect_established :
  let t := (disconnect established).2 in
  calls t = [mkCall (Some (mkChild true None None ["SIGTERM"%string] []))
               false true true [Resolved]]
  /\ process t = None /\ isConnected t = false.
Proof. repeat split. Qed.

(** C4 as stated fails while a connect is in flight: the guard of
    [connect()] reads the connected flag, which is still false then, so
    a second call spawns a second process and takes over the handle; both
    processes run. *)
Lemma C4_second_connect_while_spawning_spawns :
  let t := (connect None spawning).2 in
  (process spawning = Some 0%nat /\ liveProcesses spawning = [spawned])
  /\ (connect None spawning).1 = Pending 1
  /\ process t = Some 1%nat
  /\ liveProcesses t = [spawned; spawned].
Proof. repeat split. Qed.

(** C4, amended (connect while connected): a [connect()] call on a
    transport whose connected flag is set returns at once and leaves the
    transport as it is: no process is spawned, no timer armed, the
    handle kept. *)
Theorem C4_connect_while_connected_is_noop (spawnThrows : option Error)
    (t : StdioTransport) :
  connected t = true ->
  connect spawnThrows t = (AlreadyConnected, t)
  /\ step t (CallConnect spawnThrows) = t
  /\ liveProcesses (step t (CallConnect spawnThrows)) = liveProcesses t.
Proof.
  intros Hc. cbn [step]. unfold connect. rewrite Hc. repeat split.
Qed.

Lemma C4_connect_while_connected_is_noop_witness :
  connected established = true
  /\ connect None established = (AlreadyConnected, established)
  /\ step established (CallConnect None) = established
  /\ liveProcesses (step established (CallConnect None))
     = liveProcesses established.
Proof.
  split; [reflexivity|].
  apply (C4_connect_while_connected_is_noop None established).
  reflexivity.
Defined.

(** C10 (notifications before settlement): while a connect call is
    unsettled, stdout data of its process is framed and the frames are
    published as 'message' at once, and stderr data is published as
    'log' when it is not empty after trimming; neither listener reads or
    changes the [settled] flag or the connected flag, and the call is
    still unsettled afterwards. *)
Theorem C10_notifications_before_settlement (t : StdioTransport) (k : nat)
    (c : ConnectCall) (ch : ChildProcess) (data : Buffer) :
  calls t !! k = Some c -> childProcess c = Some ch -> settled c = false ->
  (let t' := step t (StdoutData k data) in
   emitted t'
   = emitted t ++ (Message <$> frames (buffer t ++ toString data))
   /\ connected t' = connected t
   /\ exists c', calls t' !! k = Some c'
        /\ settled c' = false /\ promise c' = promise c)
  /\ (let t' := step t (StderrData k data) in
      emitted t'
      = emitted t ++ (if nonEmpty (trim (toString data))
                      then [Log (trim (toString data))] else [])
      /\ connected t' = connected t
      /\ calls t' = calls t).
Proof.
  intros Hk Hch Hs. cbv zeta. cbn [step].
  rewrite (lookup_hasChild k t c ch Hk Hch). split.
  - destruct (onStdoutData_state k data t) as (Hc & He & _ & Hn & _).
    repeat split; try assumption.
    exists (setConnectionDelay false (setTimeout false c)).
    rewrite Hc, !list_lookup_alter_eq, Hk. repeat split. exact Hs.
  - unfold onStderrData. destruct (trim (toString data)); simpl.
    + rewrite app_nil_r. repeat split.
    + repeat split.
Qed.

(** A process that writes a JSON line to stdout and a banner to stderr
    while the connect call is in flight. *)
Lemma C10_notifications_before_settlement_witness :
  let c := mkCall (Some spawned) true true false [] in
  let data := jsonBytes "{'ready':true}" ++ [x0a] in
  (calls spawning !! 0%nat = Some c /\ childProcess c = Some spawned
   /\ settled c = false)
  /\ (let t' := step spawning (StdoutData 0 data) in
      emitted t'
      = emitted spawning
        ++ (Message <$> frames (buffer spawning ++ toString data))
      /\ connected t' = connected spawning
      /\ exists c', calls t' !! 0%nat = Some c'
           /\ settled c' = false /\ promise c' = promise c)
  /\ (let t' := step spawning (StderrData 0 data) in
      emitted t'
      = emitted spawning ++ (if nonEmpty (trim (toString data))
                             then [Log (trim (toString data))] else [])
      /\ connected t' = connected spawning
      /\ calls t' = calls spawning).
Proof.
  cbv zeta. split; [repeat split|].
  apply (C10_notifications_before_settlement spawning 0%nat
           (mkCall (Some spawned) true true false []) spawned
           (jsonBytes "{'ready':true}" ++ [x0a])); reflexivity.
Defined.

Example notifications_while_spawning :
  let t := run spawning
             [StderrData 0 (bytes "server started" ++ [x0a]);
              StdoutData 0 (jsonBytes "{'ready':true}" ++ [x0a])] in
  emitted t = [Log (str "server started"); Message (json "{'ready':true}")]
  /\ (settled <$> calls t) = [false] /\ connected t = false.
Proof. vm_compute. repeat split. Qed.

(** * Further properties of the transport *)

(** ** Frames *)

Lemma trimStart_elem (x : N) (s : jsstring) : x ∈ trimStart s -> x ∈ s.
Proof.
  induction s as [|c rest IH]; simpl; [auto|].
  destruct (isWhiteSpace c); [|auto].
  intros H. right. apply IH, H.
Qed.

Lemma trimStart_head (s : jsstring) :
  trimStart s = [] \/ (isWhiteSpace <$> head (trimStart s)) = Some false.
Proof.
  induction s as [|c rest IH]; simpl; [left; reflexivity|].
  destruct (isWhiteSpace c) eqn:Hc; [exact IH|].
  right. simpl. rewrite Hc. reflexivity.
Qed.

Lemma trimStart_last (s : jsstring) :
  trimStart s <> [] -> last (trimStart s) = last s.
Proof.
  induction s as [|c rest IH]; simpl; [congruence|].
  destruct (isWhiteSpace c); [|reflexivity].
  intros H. rewrite (IH H).
  destruct rest as [|d rest']; [simpl in H; congruence|reflexivity].
Qed.

Lemma rev_reverse (s : jsstring) : rev s = reverse s.
Proof. apply rev_alt. Qed.

Lemma trim_elem (x : N) (s : jsstring) : x ∈ trim s -> x ∈ s.
Proof.
  unfold trim, trimEnd. rewrite !rev_reverse, elem_of_reverse.
  intros H. apply trimStart_elem in H. rewrite elem_of_reverse in H.
  apply trimStart_elem, H.
Qed.

(** A trimmed text is empty, or begins and ends with a unit that is not
    white space. *)
Lemma trim_ends (s : jsstring) :
  trim s = []
  \/ ((isWhiteSpace <$> head (trim s)) = Some false
      /\ (isWhiteSpace <$> last (trim s)) = Some false).
Proof.
  unfold trim, trimEnd. rewrite !rev_reverse.
  set (u := trimStart s).
  destruct (trimStart_head (reverse u)) as [Hv|Hv].
  - left. rewrite Hv. reflexivity.
  - right. rewrite head_reverse, last_reverse. split; [|exact Hv].
    assert (Hne : trimStart (reverse u) <> []).
    { intros E. rewrite E in Hv. discriminate. }
    rewrite (trimStart_last _ Hne), last_reverse.
    destruct (trimStart_head s) as [E|E]; [|exact E].
    exfalso. apply Hne. unfold u. rewrite E. reflexivity.
Qed.

(** X1 (what a frame looks like): every line that one call of
    [handleData] publishes as a 'message' holds no newline, and begins
    and ends with a code unit that is not white space; in particular it
    is not empty. *)
Theorem X1_published_frames_are_trimmed_lines (data : Buffer)
    (t : StdioTransport) :
  exists published : list jsstring,
    emitted (handleData data t) = emitted t ++ (Message <$> published)
    /\ Forall (fun line =>
                 (LF ∉ line)
                 /\ (isWhiteSpace <$> head line) = Some false
                 /\ (isWhiteSpace <$> last line) = Some false)
         published.
Proof.
  exists (frames (buffer t ++ toString data)).
  split; [rewrite handleData_spec; reflexivity|].
  apply Forall_forall. intros line Hin. unfold frames in Hin.
  apply list_elem_of_filter in Hin as [Hne Hin].
  apply list_elem_of_fmap in Hin as (l & -> & Hl).
  destruct (splitLines_sound (buffer t ++ toString data)) as (_ & Hlines & _).
  rewrite Forall_forall in Hlines. split.
  - intros H. apply (Hlines l Hl). apply trim_elem, H.
  - destruct (trim_ends l) as [E|E]; [|exact E].
    rewrite E in Hne. discriminate.
Qed.

(** ** The carry-over *)

Lemma rejectOnce_buffer (k : nat) (e : Error) (t : StdioTransport) :
  buffer (rejectOnce k e t) = buffer t.
Proof.
  unfold rejectOnce. destruct (calls t !! k) as [c|]; [|reflexivity].
  destruct (settled c); reflexivity.
Qed.

Lemma resolveOnce_buffer (k : nat) (t : StdioTransport) :
  buffer (resolveOnce k t) = buffer t.
Proof.
  unfold resolveOnce. destruct (calls t !! k) as [c|]; [|reflexivity].
  destruct (settled c); reflexivity.
Qed.

Lemma emitError_buffer (e : Error) (t : StdioTransport) :
  buffer (emitError e t).2 = buffer t.
Proof. unfold emitError. destruct (errorListeners t); reflexivity. Qed.

(** One turn of the event loop leaves the buffer as it is, empties it,
    or replaces it by the carry-over of the buffer and a decoded chunk. *)
Lemma step_buffer (t : StdioTransport) (e : Event) :
  buffer (step t e) = buffer t
  \/ buffer (step t e) = []
  \/ exists data, buffer (step t e) = carryOver (buffer t ++ toString data).
Proof.
  destruct e as [sp| |m w| |k|k|k d|k d|k err|k code sg|k code sg];
    cbn [step].
  - left. unfold connect. destruct (connected t); [reflexivity|].
    destruct sp; [cbn [snd]; rewrite rejectOnce_buffer|]; reflexivity.
  - unfold disconnect. destruct (process t); [right|]; left; reflexivity.
  - left. unfold send. destruct (process t); [|apply emitError_buffer].
    destruct (connected t); [|apply emitError_buffer].
    destruct w; [apply emitError_buffer|reflexivity].
  - left. reflexivity.
  - left. destruct (calls t !! k) as [c|]; [|reflexivity].
    destruct (connectionDelay c); [|reflexivity].
    cbn [clearConnectionDelay updateCall setCalls buffer].
    unfold onConnectionDelay.
    destruct (calls t !! k) as [[[ch|] ? ? st ?]|]; try reflexivity.
    destruct (_ && _); [apply resolveOnce_buffer|].
    destruct (exitCode ch); [|reflexivity].
    destruct (negb st); [apply rejectOnce_buffer|reflexivity].
  - destruct (calls t !! k) as [c|]; [|left; reflexivity].
    destruct (timeout c); [|left; reflexivity].
    right; left. cbn [clearTimeoutTimer updateCall setCalls buffer].
    unfold onTimeout. rewrite rejectOnce_buffer. reflexivity.
  - destruct (hasChild k t); [|left; reflexivity].
    right; right. exists d.
    destruct (onStdoutData_state k d t) as (_ & _ & Hb & _). exact Hb.
  - left. destruct (hasChild k t); [|reflexivity].
    unfold onStderrData. destruct (trim (toString d)); reflexivity.
  - left. destruct (hasChild k t); [|reflexivity].
    unfold onProcessError.
    set (t1 := clearConnectionDelay k (clearTimeoutTimer k t)).
    change (buffer t) with (buffer t1).
    destruct (_ && connected t1).
    + pose proof (emitError_buffer err t1) as Hb.
      destruct (emitError err t1) as [[|x] t2]; cbn [snd] in Hb.
      * rewrite rejectOnce_buffer. exact Hb.
      * exact Hb.
    + apply rejectOnce_buffer.
  - left. destruct (hasChild k t); [|reflexivity].
    unfold onProcessClose.
    set (t1 := clearConnectionDelay k (clearTimeoutTimer k t)).
    change (buffer t) with (buffer t1).
    destruct (calls t1 !! k) as [c|]; [|reflexivity].
    destruct (negb (settled c)); [apply rejectOnce_buffer|reflexivity].
  - left. destruct (hasChild k t); reflexivity.
Qed.

(** X2 (the buffer holds no complete line): in every run of the event
    loop from a new transport, whatever the calls, timers and process
    events, the carry-over buffer holds no newline: every complete line
    has been taken out of it. *)
Theorem X2_buffer_never_holds_a_newline (configTimeout : option Z)
    (events : list Event) :
  LF ∉ buffer (run (newStdioTransport configTimeout) events).
Proof.
  assert (Hinv : forall evs t, LF ∉ buffer t -> LF ∉ buffer (run t evs)).
  { induction evs as [|e evs IH]; intros t Ht; [exact Ht|].
    simpl. apply IH.
    destruct (step_buffer t e) as [->|[->|[data ->]]];
      [exact Ht|apply not_elem_of_nil|apply carryOver_no_newline]. }
  apply Hinv. apply not_elem_of_nil.
Qed.

(** X3 (frames of a chunked stream): feeding chunks one by one to a
    transport whose buffer holds no newline publishes exactly the frames
    of the text made of the buffer followed by the decoded chunks, in
    order, and leaves the tail of that text in the buffer: where the
    chunks are cut shows only through their decoding. *)
Theorem X3_feed_publishes_frames_of_text (chunks : list Buffer)
    (t : StdioTransport) :
  LF ∉ buffer t ->
  emitted (feed chunks t)
  = emitted t
    ++ (Message <$> frames (buffer t ++ concat (toString <$> chunks)))
  /\ buffer (feed chunks t)
     = carryOver (buffer t ++ concat (toString <$> chunks))
  /\ calls (feed chunks t) = calls t
  /\ connected (feed chunks t) = connected t.
Proof.
  intros Hbuf. rewrite (feed_spec chunks t Hbuf). repeat split.
Qed.

Lemma X3_feed_publishes_frames_of_text_witness :
  let chunks := [jsonBytes "{'a'"; jsonBytes ":1}" ++ [x0a; x0a];
                 jsonBytes "{'b':2}"] in
  let t := newStdioTransport None in
  (LF ∉ buffer t)
  /\ emitted (feed chunks t)
     = emitted t
       ++ (Message <$> frames (buffer t ++ concat (toString <$> chunks)))
  /\ buffer (feed chunks t)
     = carryOver (buffer t ++ concat (toString <$> chunks))
  /\ calls (feed chunks t) = calls t
  /\ connected (feed chunks t) = connected t.
Proof.
  cbv zeta. split; [apply not_elem_of_nil|].
  apply (X3_feed_publishes_frames_of_text
           [jsonBytes "{'a'"; jsonBytes ":1}" ++ [x0a; x0a];
            jsonBytes "{'b':2}"] (newStdioTransport None)).
  apply not_elem_of_nil.
Defined.

(** X4 (chunk boundaries in an ASCII stream): for a stream of ASCII
    bytes, any two ways of cutting it into chunks leave the transport in
    the same state: the same frames published in the same order, the same
    carry-over. *)
Theorem X4_ascii_chunking_invariance (chunks1 chunks2 : list Buffer)
    (t : StdioTransport) :
  LF ∉ buffer t ->
  concat chunks1 = concat chunks2 ->
  Forall (fun b => isAscii b = true) (concat chunks1) ->
  feed chunks1 t = feed chunks2 t.
Proof.
  intros Hbuf Hsame Hascii. apply feed_chunking_ascii; assumption.
Qed.

Lemma X4_ascii_chunking_invariance_witness :
  let chunks1 := [jsonBytes "{'a':1}" ++ [x0a] ++ jsonBytes "{'";
                  jsonBytes "b':2}" ++ [x0a]] in
  let chunks2 := [jsonBytes "{'a':"; jsonBytes "1}" ++ [x0a];
                  jsonBytes "{'b':2}" ++ [x0a]] in
  let t := newStdioTransport None in
  (LF ∉ buffer t)
  /\ concat chunks1 = concat chunks2
  /\ Forall (fun b => isAscii b = true) (concat chunks1)
  /\ feed chunks1 t = feed chunks2 t.
Proof.
  cbv zeta. split; [apply not_elem_of_nil|].
  split; [reflexivity|].
  assert (Hascii : Forall (fun b => isAscii b = true)
                     (concat [jsonBytes "{'a':1}" ++ [x0a] ++ jsonBytes "{'";
                              jsonBytes "b':2}" ++ [x0a]])).
  { apply Forall_forall. intros b Hb. vm_compute in Hb.
    repeat (apply elem_of_cons in Hb as [->|Hb]; [reflexivity|]).
    apply elem_of_nil in Hb. contradiction. }
  split; [exact Hascii|].
  apply (X4_ascii_chunking_invariance
           [jsonBytes "{'a':1}" ++ [x0a] ++ jsonBytes "{'";
            jsonBytes "b':2}" ++ [x0a]]
           [jsonBytes "{'a':"; jsonBytes "1}" ++ [x0a];
            jsonBytes "{'b':2}" ++ [x0a]]
           (newStdioTransport None));
    [apply not_elem_of_nil|reflexivity|exact Hascii].
Defined.

Lemma carryOver_ends_with_newline (text : jsstring) :
  carryOver (text ++ [LF]) = [].
Proof.
  destruct (frames_app text [LF]) as [_ ->].
  destruct (frames_line (carryOver text) [] (carryOver_no_newline text))
    as [_ ->].
  reflexivity.
Qed.

(** X5 (a chunk without newline): when neither the buffer nor the decoded
    chunk holds a newline, [handleData] publishes nothing and only
    appends the decoded chunk to the buffer. *)
Theorem X5_chunk_without_newline_only_grows_buffer (data : Buffer)
    (t : StdioTransport) :
  LF ∉ buffer t -> LF ∉ toString data ->
  handleData data t = setBuffer (buffer t ++ toString data) t.
Proof.
  intros Hb Hd. rewrite handleData_spec.
  assert (Hno : LF ∉ buffer t ++ toString data).
  { rewrite not_elem_of_app. split; assumption. }
  destruct (frames_no_newline _ Hno) as [-> ->].
  destruct t; unfold setEmitted, setBuffer; simpl.
  rewrite app_nil_r. reflexivity.
Qed.

Lemma X5_chunk_without_newline_only_grows_buffer_witness :
  let t := handleData (jsonBytes "{'a'") (newStdioTransport None) in
  let data := jsonBytes ":1" in
  (LF ∉ buffer t) /\ (LF ∉ toString data)
  /\ handleData data t = setBuffer (buffer t ++ toString data) t.
Proof.
  cbv zeta.
  assert (Hb : LF ∉ buffer (handleData (jsonBytes "{'a'")
                              (newStdioTransport None))).
  { vm_compute. intros H.
    repeat (apply elem_of_cons in H as [H|H]; [discriminate|]).
    apply elem_of_nil in H. exact H. }
  assert (Hd : LF ∉ toString (jsonBytes ":1")).
  { vm_compute. intros H.
    repeat (apply elem_of_cons in H as [H|H]; [discriminate|]).
    apply elem_of_nil in H. exact H. }
  split; [exact Hb|]. split; [exact Hd|].
  exact (X5_chunk_without_newline_only_grows_buffer (jsonBytes ":1")
           (handleData (jsonBytes "{'a'") (newStdioTransport None)) Hb Hd).
Defined.

(** X6 (a chunk that ends on a newline): when the decoded chunk ends with
    a newline, [handleData] leaves the buffer empty, whatever the buffer
    held before. *)
Theorem X6_chunk_ending_on_newline_empties_buffer (data : Buffer)
    (body : jsstring) (t : StdioTransport) :
  toString data = body ++ [LF] ->
  buffer (handleData data t) = [].
Proof.
  intros Hd. rewrite handleData_spec. cbn [buffer setEmitted setBuffer].
  rewrite Hd, app_assoc. apply carryOver_ends_with_newline.
Qed.

Lemma X6_chunk_ending_on_newline_empties_buffer_witness :
  let t := handleData (jsonBytes "{'a'") (newStdioTransport None) in
  let data := jsonBytes ":1}" ++ [x0a] in
  toString data = json ":1}" ++ [LF]
  /\ buffer t = json "{'a'"
  /\ buffer (handleData data t) = [].
Proof.
  cbv zeta. split; [reflexivity|]. split; [vm_compute; reflexivity|].
  apply (X6_chunk_ending_on_newline_empties_buffer
           (jsonBytes ":1}" ++ [x0a]) (json ":1}")
           (handleData (jsonBytes "{'a'") (newStdioTransport None))).
  reflexivity.
Defined.

(** ** The connection, step by step *)

Lemma rejectOnce_settled (k : nat) (e : Error) (t : StdioTransport)
    (c : ConnectCall) :
  calls t !! k = Some c -> settled c = true -> rejectOnce k e t = t.
Proof. intros Hk Hs. unfold rejectOnce. rewrite Hk, Hs. reflexivity. Qed.

(** X7 (after disconnect): whatever the state, after [disconnect()] the
    transport holds no process handle, [isConnected()] is false, and a
    [send] writes nothing: it reports the not-connected error. *)
Theorem X7_after_disconnect_not_connected (t : StdioTransport)
    (message : jsstring) (writeThrows : option Error) :
  let t' := (disconnect t).2 in
  process t' = None
  /\ isConnected t' = false
  /\ send message writeThrows t' = emitError NotConnected t'.
Proof.
  cbv zeta.
  assert (Hp : process (disconnect t).2 = None).
  { unfold disconnect. destruct (process t) eqn:Hp; [|exact Hp].
    apply (proj1 (cleanup_state t)). }
  split; [exact Hp|]. split.
  - unfold isConnected. rewrite Hp. apply andb_false_r.
  - unfold send. rewrite Hp. reflexivity.
Qed.

(** X8 (the grace timer resolves): when the grace timer of an unsettled
    call fires while the transport is not connected, still holds the
    process of that call, and that process was neither killed nor has an
    exit code, the connect operation resolves: the connected flag is set
    and [isConnected()] is true. Nothing is published, and the timeout
    timer of the call is left as it was. *)
Theorem X8_grace_timer_resolves (t : StdioTransport) (k : nat)
    (c : ConnectCall) (ch : ChildProcess) :
  calls t !! k = Some c -> childProcess c = Some ch ->
  connectionDelay c = true -> settled c = false ->
  connected t = false -> process t = Some k ->
  killed ch = false -> exitCode ch = None ->
  let t' := step t (GraceTimer k) in
  connected t' = true /\ isConnected t' = true
  /\ calls t' !! k
     = Some (mkCall (Some ch) false (timeout c) true (promise c ++ [Resolved]))
  /\ emitted t' = emitted t /\ buffer t' = buffer t
  /\ process t' = Some k.
Proof.
  intros Hk Hch Hd Hs Hconn Hp Hkill Hexit. cbv zeta. cbn [step].
  rewrite Hk, Hd. unfold onConnectionDelay. rewrite Hk.
  destruct c as [chopt d tm st pr]. simpl in Hch, Hd, Hs. subst.
  rewrite Hconn, Hp, Hkill, Hexit.
  rewrite !bool_decide_eq_true_2 by reflexivity. cbn [negb andb].
  unfold resolveOnce. rewrite Hk. cbn [settled].
  assert (Hk' : calls (clearConnectionDelay k
                        (setConnected true (updateCall k (settle Resolved) t)))
                !! k
                = Some (mkCall (Some ch) false tm true (pr ++ [Resolved]))).
  { unfold clearConnectionDelay, updateCall. cbn [calls setCalls setConnected].
    rewrite !list_lookup_alter_eq, Hk. reflexivity. }
  repeat split; try assumption.
  unfold isConnected. cbn [connected process clearConnectionDelay updateCall
                           setCalls setConnected].
  rewrite Hp. fold (updateCall k (settle Resolved) t).
  change (alter (setConnectionDelay false) k
            (calls (updateCall k (settle Resolved) t)))
    with (calls (clearConnectionDelay k
                   (setConnected true (updateCall k (settle Resolved) t)))).
  rewrite Hk'. cbn. rewrite Hkill, Hexit. reflexivity.
Qed.

Lemma X8_grace_timer_resolves_witness :
  let c := mkCall (Some spawned) true true false [] in
  let t' := step spawning (GraceTimer 0) in
  (calls spawning !! 0%nat = Some c /\ childProcess c = Some spawned
   /\ connectionDelay c = true /\ settled c = false
   /\ connected spawning = false /\ process spawning = Some 0%nat
   /\ killed spawned = false /\ exitCode spawned = None)
  /\ connected t' = true /\ isConnected t' = true
  /\ calls t' !! 0%nat
     = Some (mkCall (Some spawned) false (timeout c) true
               (promise c ++ [Resolved]))
  /\ emitted t' = emitted spawning /\ buffer t' = buffer spawning
  /\ process t' = Some 0%nat.
Proof.
  cbv zeta. split; [repeat split|].
  apply (X8_grace_timer_resolves spawning 0%nat
           (mkCall (Some spawned) true true false []) spawned);
    reflexivity.
Defined.

(** X9 (the grace timer that settles nothing): when the grace timer of a
    call fires and its process has no exit code, but the transport is
    already connected, or holds another handle or none, or the process
    was killed, the callback does nothing: the call is neither resolved
    nor rejected, and only the timer is spent. *)
Theorem X9_grace_timer_without_effect (t : StdioTransport) (k : nat)
    (c : ConnectCall) (ch : ChildProcess) :
  calls t !! k = Some c -> childProcess c = Some ch ->
  connectionDelay c = true -> exitCode ch = None ->
  connected t = true \/ process t <> Some k \/ killed ch = true ->
  step t (GraceTimer k) = clearConnectionDelay k t.
Proof.
  intros Hk Hch Hd Hexit Hwhy. cbn [step]. rewrite Hk, Hd.
  unfold onConnectionDelay. rewrite Hk.
  destruct c as [chopt d tm st pr]. simpl in Hch, Hd. subst.
  rewrite Hexit.
  destruct (_ && _) eqn:Hcond; [exfalso|reflexivity].
  rewrite !andb_true_iff in Hcond. destruct Hcond as [[[Hc Hp] Hkl] _].
  destruct Hwhy as [Hc'|[Hp'|Hkl']].
  - rewrite Hc' in Hc. discriminate.
  - apply bool_decide_eq_true_1 in Hp. contradiction.
  - rewrite Hkl' in Hkl. discriminate.
Qed.

(** A [disconnect()] while the connect is in flight: the process is
    killed, and the grace timer settles nothing. *)
Lemma X9_grace_timer_without_effect_witness :
  let t := run (newStdioTransport None) [CallConnect None; CallDisconnect] in
  let ch := mkChild true None None ["SIGTERM"%string] [] in
  let c := mkCall (Some ch) true true false [] in
  (calls t !! 0%nat = Some c /\ childProcess c = Some ch
   /\ connectionDelay c = true /\ exitCode ch = None
   /\ (connected t = true \/ process t <> Some 0%nat \/ killed ch = true))
  /\ step t (GraceTimer 0) = clearConnectionDelay 0 t.
Proof.
  cbv zeta. split; [repeat split; right; right; reflexivity|].
  apply (X9_grace_timer_without_effect
           (run (newStdioTransport None) [CallConnect None; CallDisconnect])
           0%nat
           (mkCall (Some (mkChild true None None ["SIGTERM"%string] []))
              true true false [])
           (mkChild true None None ["SIGTERM"%string] []));
    try reflexivity.
  right; right; reflexivity.
Defined.

(** X10 (the timeout timer after settlement): the grace timer settles a
    call without cancelling its timeout timer. When that timer fires on
    a settled call, the transport is torn down all the same: SIGTERM goes to the process
    it holds, the handle is dropped, the connected flag cleared and the
    buffer emptied; the outcome of the connect operation stays what it
    was, and nothing is published. *)
Theorem X10_timeout_after_settlement_tears_down (t : StdioTransport)
    (k : nat) (c : ConnectCall) :
  calls t !! k = Some c -> timeout c = true -> settled c = true ->
  let t' := step t (TimeoutTimer k) in
  process t' = None /\ connected t' = false /\ isConnected t' = false
  /\ buffer t' = [] /\ emitted t' = emitted t
  /\ (exists c', calls t' !! k = Some c'
        /\ settled c' = true /\ promise c' = promise c
        /\ timeout c' = false)
  /\ match process t with
     | Some j => childOf j t' = kill "SIGTERM" <$> childOf j t
     | None => True
     end.
Proof.
  intros Hk Htm Hs. cbv zeta. cbn [step]. rewrite Hk, Htm.
  unfold onTimeout. set (t1 := clearConnectionDelay k t).
  assert (Hk1 : calls t1 !! k = Some (setConnectionDelay false c)).
  { unfold t1, clearConnectionDelay, updateCall. cbn [calls setCalls].
    rewrite list_lookup_alter_eq, Hk. reflexivity. }
  destruct (cleanup_lookup t1 k _ Hk1) as (c2 & Hk2 & _ & _ & Hs2 & Hp2).
  destruct (cleanup_state t1) as (Hproc & Hconn & Hbuf & Hem & _ & _).
  rewrite (rejectOnce_settled k _ (cleanup t1) c2 Hk2)
    by (rewrite Hs2; exact Hs).
  unfold clearTimeoutTimer, updateCall.
  cbn [process connected buffer emitted calls setCalls].
  repeat split; try assumption.
  - exists (setTimeout false c2). rewrite list_lookup_alter_eq, Hk2.
    split; [reflexivity|]. cbn [settled promise timeout setTimeout].
    rewrite Hs2, Hp2. repeat split. exact Hs.
  - destruct (process t) as [j|] eqn:Hp; [|exact I].
    change (childOf j (clearTimeoutTimer k (cleanup t1))
            = kill "SIGTERM" <$> childOf j t).
    rewrite clearTimeoutTimer_childOf.
    rewrite cleanup_childOf by exact Hp.
    f_equal. unfold childOf, t1, clearConnectionDelay, updateCall.
    cbn [calls setCalls].
    destruct (decide (k = j)) as [->|Hne].
    + rewrite list_lookup_alter_eq. destruct (calls t !! j); reflexivity.
    + rewrite list_lookup_alter_ne by exact Hne. reflexivity.
Qed.

(** A connection established by the grace timer, on which nothing
    happens until the timeout timer fires. *)
Lemma X10_timeout_after_settlement_tears_down_witness :
  let c := mkCall (Some spawned) false true true [Resolved] in
  let t' := step established (TimeoutTimer 0) in
  (calls established !! 0%nat = Some c /\ timeout c = true
   /\ settled c = true)
  /\ process t' = None /\ connected t' = false /\ isConnected t' = false
  /\ buffer t' = [] /\ emitted t' = emitted established
  /\ (exists c', calls t' !! 0%nat = Some c'
        /\ settled c' = true /\ promise c' = promise c
        /\ timeout c' = false)
  /\ match process established with
     | Some j => childOf j t' = kill "SIGTERM" <$> childOf j established
     | None => True
     end.
Proof.
  cbv zeta. split; [repeat split|].
  apply (X10_timeout_after_settlement_tears_down established 0%nat
           (mkCall (Some spawned) false true true [Resolved]));
    reflexivity.
Defined.

(** X11 (close after settlement): when the streams of a process close
    and the call that spawned it is settled, the connected flag is
    cleared and one 'close' is published; the outcome of the call is not
    touched. This holds for the process of any call, the one the
    transport holds or an earlier one. *)
Theorem X11_close_after_settlement_publishes_close (t : StdioTransport)
    (k : nat) (c : ConnectCall) (ch : ChildProcess) (code : option Z)
    (signal : option string) :
  calls t !! k = Some c -> childProcess c = Some ch -> settled c = true ->
  let t' := step t (ProcessClose k code signal) in
  connected t' = false /\ isConnected t' = false
  /\ emitted t' = emitted t ++ [Close]
  /\ process t' = process t /\ buffer t' = buffer t
  /\ calls t' !! k
     = Some (mkCall (Some ch) false false true (promise c)).
Proof.
  intros Hk Hch Hs. cbv zeta. cbn [step].
  rewrite (lookup_hasChild k t c ch Hk Hch).
  unfold onProcessClose. rewrite (clearTimers_lookup k t c Hk).
  cbn [settled setConnectionDelay setTimeout]. rewrite Hs. cbn [negb].
  repeat split.
  cbn [emit setEmitted setConnected calls].
  rewrite (clearTimers_lookup k t c Hk).
  destruct c; simpl in *. subst. reflexivity.
Qed.

Lemma X11_close_after_settlement_publishes_close_witness :
  let c := mkCall (Some spawned) false true true [Resolved] in
  let t' := step established (ProcessClose 0 None (Some "SIGKILL"%string)) in
  (calls established !! 0%nat = Some c /\ childProcess c = Some spawned
   /\ settled c = true)
  /\ connected t' = false /\ isConnected t' = false
  /\ emitted t' = emitted established ++ [Close]
  /\ process t' = process established /\ buffer t' = buffer established
  /\ calls t' !! 0%nat
     = Some (mkCall (Some spawned) false false true (promise c)).
Proof.
  cbv zeta. split; [repeat split|].
  apply (X11_close_after_settlement_publishes_close established 0%nat
           (mkCall (Some spawned) false true true [Resolved]) spawned
           None (Some "SIGKILL"%string)); reflexivity.
Defined.

(** X12 (the exit listener): when a spawned process exits, the connected
    flag is cleared and the grace timer of its call cancelled, whichever
    call it belongs to; the listener settles nothing, publishes nothing
    and leaves the timeout timer as it was. *)
Theorem X12_exit_clears_connected_only (t : StdioTransport) (k : nat)
    (c : ConnectCall) (ch : ChildProcess) (code : option Z)
    (signal : option string) :
  calls t !! k = Some c -> childProcess c = Some ch ->
  let t' := step t (ProcessExit k code signal) in
  connected t' = false /\ isConnected t' = false
  /\ emitted t' = emitted t /\ uncaught t' = uncaught t
  /\ process t' = process t /\ buffer t' = buffer t
  /\ calls t' !! k
     = Some (mkCall (Some (recordExit code signal ch)) false (timeout c)
               (settled c) (promise c)).
Proof.
  intros Hk Hch. cbv zeta. cbn [step].
  rewrite (lookup_hasChild k t c ch Hk Hch).
  repeat split.
  unfold onProcessExit, clearConnectionDelay, updateChild, updateCall.
  cbn [calls setCalls setConnected].
  rewrite !list_lookup_alter_eq, Hk.
  destruct c; simpl in *. subst. reflexivity.
Qed.

Lemma X12_exit_clears_connected_only_witness :
  let c := mkCall (Some spawned) false true true [Resolved] in
  let t' := step established (ProcessExit 0 (Some 1) None) in
  (calls established !! 0%nat = Some c /\ childProcess c = Some spawned)
  /\ connected t' = false /\ isConnected t' = false
  /\ emitted t' = emitted established /\ uncaught t' = uncaught established
  /\ process t' = process established /\ buffer t' = buffer established
  /\ calls t' !! 0%nat
     = Some (mkCall (Some (recordExit (Some 1) None spawned)) false
               (timeout c) (settled c) (promise c)).
Proof.
  cbv zeta. split; [repeat split|].
  apply (X12_exit_clears_connected_only established 0%nat
           (mkCall (Some spawned) false true true [Resolved]) spawned
           (Some 1) None); reflexivity.
Defined.

(** X13 (a process error after settlement): when a process reports an
    error and its call is already settled, nothing is rejected and the
    connected flag is left as it is. While the transport is connected the
    error goes to the 'error' listeners, or, when there is none, leaves
    the listener as an uncaught exception; while it is not connected the
    error is dropped. *)
Theorem X13_error_after_settlement (t : StdioTransport) (k : nat)
    (c : ConnectCall) (ch : ChildProcess) (err : Error) :
  calls t !! k = Some c -> childProcess c = Some ch -> settled c = true ->
  let t' := step t (ProcessError k err) in
  connected t' = connected t
  /\ calls t' !! k = Some (mkCall (Some ch) false false true (promise c))
  /\ match connected t, errorListeners t with
     | true, O => emitted t' = emitted t /\ uncaught t' = uncaught t ++ [err]
     | true, S _ =>
         emitted t' = emitted t ++ [ErrorEvent err]
         /\ uncaught t' = uncaught t
     | false, _ => emitted t' = emitted t /\ uncaught t' = uncaught t
     end.
Proof.
  intros Hk Hch Hs. cbv zeta. cbn [step].
  rewrite (lookup_hasChild k t c ch Hk Hch).
  pose proof (clearTimers_lookup k t c Hk) as Hk1.
  unfold onProcessError. rewrite Hk1.
  cbn [settled setConnectionDelay setTimeout]. rewrite Hs. cbn [andb].
  set (t1 := clearConnectionDelay k (clearTimeoutTimer k t)) in *.
  change (connected t1) with (connected t).
  assert (Hcall : Some (setConnectionDelay false (setTimeout false c))
                  = Some (mkCall (Some ch) false false true (promise c))).
  { destruct c; simpl in *. subst. reflexivity. }
  destruct (connected t) eqn:Hconn.
  - unfold emitError. change (errorListeners t1) with (errorListeners t).
    destruct (errorListeners t) as [|n].
    + cbn. rewrite Hconn. repeat split.
      change (calls t1 !! k
              = Some (mkCall (Some ch) false false true (promise c))).
      rewrite Hk1. exact Hcall.
    + rewrite (rejectOnce_settled k err (emit (ErrorEvent err) t1)
                 (setConnectionDelay false (setTimeout false c)))
        by (try exact Hk1; exact Hs).
      cbn. rewrite Hconn. repeat split.
      change (calls t1 !! k
              = Some (mkCall (Some ch) false false true (promise c))).
      rewrite Hk1. exact Hcall.
  - rewrite (rejectOnce_settled k err t1
               (setConnectionDelay false (setTimeout false c)))
      by (try exact Hk1; exact Hs).
    cbn. rewrite Hconn. repeat split.
    change (calls t1 !! k
            = Some (mkCall (Some ch) false false true (promise c))).
    rewrite Hk1. exact Hcall.
Qed.

Lemma X13_error_after_settlement_witness :
  let t := step established CallOnError in
  let c := mkCall (Some spawned) false true true [Resolved] in
  let err := RuntimeError "write EPIPE" in
  let t' := step t (ProcessError 0 err) in
  (calls t !! 0%nat = Some c /\ childProcess c = Some spawned
   /\ settled c = true)
  /\ connected t' = connected t
  /\ calls t' !! 0%nat
     = Some (mkCall (Some spawned) false false true (promise c))
  /\ match connected t, errorListeners t with
     | true, O => emitted t' = emitted t /\ uncaught t' = uncaught t ++ [err]
     | true, S _ =>
         emitted t' = emitted t ++ [ErrorEvent err]
         /\ uncaught t' = uncaught t
     | false, _ => emitted t' = emitted t /\ uncaught t' = uncaught t
     end.
Proof.
  cbv zeta. split; [repeat split|].
  apply (X13_error_after_settlement (step established CallOnError) 0%nat
           (mkCall (Some spawned) false true true [Resolved]) spawned
           (RuntimeError "write EPIPE")); reflexivity.
Defined.

(** ** The methods, composed *)

Lemma send_connected (message : jsstring) (t : StdioTransport) (j : nat) :
  process t = Some j -> connected t = true ->
  step t (CallSend message None)
  = updateChild j (stdinWrite (message ++ [LF])) t.
Proof. intros Hp Hc. cbn [step]. unfold send. rewrite Hp, Hc. reflexivity. Qed.

(** X14 (writes keep the order of the calls): on a connected transport,
    a sequence of [send] calls whose writes go through appends to the
    stdin of the held process one write per message, in call order, each
    the message followed by one newline; nothing is published and the
    connection is left as it is. *)
Theorem X14_sends_are_written_in_order (messages : list jsstring)
    (t : StdioTransport) (j : nat) :
  process t = Some j -> connected t = true ->
  let t' := run t ((fun m => CallSend m None) <$> messages) in
  (stdinWrites <$> childOf j t')
  = ((fun written => written ++ ((fun m => m ++ [LF]) <$> messages))
       <$> (stdinWrites <$> childOf j t))
  /\ emitted t' = emitted t
  /\ process t' = Some j /\ connected t' = true /\ buffer t' = buffer t.
Proof.
  cbv zeta. revert t.
  induction messages as [|m ms IH]; intros t Hp Hc.
  - simpl. repeat split; try assumption.
    destruct (childOf j t) as [ch|]; simpl; [|reflexivity].
    rewrite app_nil_r. reflexivity.
  - rewrite fmap_cons. cbn [run fold_left].
    rewrite (send_connected m t j Hp Hc).
    change (fold_left step ((fun m0 => CallSend m0 None) <$> ms)
              (updateChild j (stdinWrite (m ++ [LF])) t))
      with (run (updateChild j (stdinWrite (m ++ [LF])) t)
              ((fun m0 => CallSend m0 None) <$> ms)).
    destruct (IH (updateChild j (stdinWrite (m ++ [LF])) t) Hp Hc)
      as (Hw & He & Hp' & Hc' & Hb).
    rewrite Hw, He, Hp', Hc', Hb. repeat split.
    rewrite updateChild_childOf.
    destruct (childOf j t) as [ch|]; simpl; [|reflexivity].
    rewrite <- app_assoc. reflexivity.
Qed.

Lemma X14_sends_are_written_in_order_witness :
  let messages := [json "{'id':1}"; json "{'id':2}"; json "{'id':3}"] in
  let t' := run established ((fun m => CallSend m None) <$> messages) in
  (process established = Some 0%nat /\ connected established = true)
  /\ (stdinWrites <$> childOf 0 t')
     = ((fun written => written ++ ((fun m => m ++ [LF]) <$> messages))
          <$> (stdinWrites <$> childOf 0 established))
  /\ emitted t' = emitted established
  /\ process t' = Some 0%nat /\ connected t' = true
  /\ buffer t' = buffer established.
Proof.
  cbv zeta. split; [repeat split|].
  apply (X14_sends_are_written_in_order
           [json "{'id':1}"; json "{'id':2}"; json "{'id':3}"]
           established 0%nat); reflexivity.
Defined.

(** X15 (disconnect settles nothing): [disconnect()] calls neither
    [resolve] nor [reject] and cancels no timer: every connect call,
    also one still in flight, keeps its [settled] flag, its outcome and
    its pending timers; nothing is published. *)
Theorem X15_disconnect_settles_nothing (t : StdioTransport) :
  let view := fun c : ConnectCall =>
                (settled c, promise c, connectionDelay c, timeout c) in
  (view <$> calls (disconnect t).2) = (view <$> calls t)
  /\ emitted (disconnect t).2 = emitted t
  /\ uncaught (disconnect t).2 = uncaught t.
Proof.
  cbv zeta. unfold disconnect.
  destruct (process t) as [j|] eqn:Hp; [|repeat split].
  destruct (cleanup_state t) as (_ & _ & _ & Hem & _ & Hcalls).
  cbn [fst snd]. rewrite Hcalls, Hp. split; [|split; [exact Hem|]].
  - apply list_eq. intros i. rewrite !list_lookup_fmap.
    destruct (decide (j = i)) as [->|Hne].
    + rewrite list_lookup_alter_eq. destruct (calls t !! i); reflexivity.
    + rewrite list_lookup_alter_ne by exact Hne. reflexivity.
  - unfold cleanup. rewrite Hp. reflexivity.
Qed.

(** X16 (spawn throws): when [spawn] throws on a transport that is not
    connected, [connect()] is rejected at once with the error thrown; no
    timer is armed, and the handle, the buffer and the earlier calls are
    left as they were. *)
Theorem X16_spawn_throws_rejects_at_once (e : Error) (t : StdioTransport) :
  connected t = false ->
  let r := connect (Some e) t in
  r.1 = Pending (length (calls t))
  /\ calls r.2 = calls t ++ [mkCall None false false true [Rejected e]]
  /\ process r.2 = process t /\ connected r.2 = false
  /\ buffer r.2 = buffer t /\ emitted r.2 = emitted t.
Proof.
  intros Hc. cbv zeta. unfold connect. rewrite Hc. cbn [fst snd].
  set (t1 := setCalls (calls t ++ [mkCall None false false false []]) t).
  assert (Hk : calls t1 !! length (calls t)
               = Some (mkCall None false false false [])).
  { unfold t1. cbn [calls setCalls].
    apply list_lookup_middle. reflexivity. }
  rewrite (rejectOnce_unsettled _ e t1 _ Hk) by reflexivity.
  unfold setConnected, updateCall, t1.
  cbn [process connected buffer emitted calls setCalls].
  repeat split.
  rewrite <- (Nat.add_0_r (length (calls t))) at 1.
  rewrite alter_app_r. reflexivity.
Qed.

Lemma X16_spawn_throws_rejects_at_once_witness :
  let e := RuntimeError "spawn EINVAL" in
  let t := newStdioTransport None in
  let r := connect (Some e) t in
  connected t = false
  /\ r.1 = Pending (length (calls t))
  /\ calls r.2 = calls t ++ [mkCall None false false true [Rejected e]]
  /\ process r.2 = process t /\ connected r.2 = false
  /\ buffer r.2 = buffer t /\ emitted r.2 = emitted t.
Proof.
  cbv zeta. split; [reflexivity|].
  apply (X16_spawn_throws_rejects_at_once (RuntimeError "spawn EINVAL")
           (newStdioTransport None)).
  reflexivity.
Defined.

(** ** Whole runs *)

Lemma callChange_timers (c c' : ConnectCall) :
  callChange c c' ->
  (connectionDelay c = false -> connectionDelay c' = false)
  /\ (timeout c = false -> timeout c' = false).
Proof.
  induction 1 as [c|c ch|c|c|c e Hs|c Hs Hd|c1 c2 c3 _ IH1 _ IH2];
    try (split; auto; fail).
  destruct IH1, IH2. split; auto.
Qed.

Lemma callChange_resolved (c c' : ConnectCall) :
  callChange c c' -> Resolved ∈ promise c -> Resolved ∈ promise c'.
Proof.
  induction 1 as [c|c ch|c|c|c e Hs|c Hs Hd|c1 c2 c3 _ IH1 _ IH2];
    intros Hin; auto; simpl; apply elem_of_app; left; exact Hin.
Qed.

(** X17 (timers are never armed again): in every run of the event loop,
    every connect call keeps its place, and a timer of the call that is
    not pending (cancelled, or spent) never becomes pending again. *)
Theorem X17_timers_are_never_rearmed (t : StdioTransport)
    (events : list Event) (k : nat) (c : ConnectCall) :
  calls t !! k = Some c ->
  exists c', calls (run t events) !! k = Some c'
    /\ (connectionDelay c = false -> connectionDelay c' = false)
    /\ (timeout c = false -> timeout c' = false).
Proof.
  intros Hk. destruct (run_lookup events t k c Hk) as (c' & Hk' & Hch).
  exists c'. split; [exact Hk'|]. apply callChange_timers, Hch.
Qed.

Lemma X17_timers_are_never_rearmed_witness :
  let t := step spawning (StdoutData 0 (jsonBytes "{}" ++ [x0a])) in
  let events := [GraceTimer 0; TimeoutTimer 0; CallDisconnect;
                 CallConnect None; ProcessExit 0 (Some 0) None] in
  let c := mkCall (Some spawned) false false false [] in
  calls t !! 0%nat = Some c
  /\ exists c', calls (run t events) !! 0%nat = Some c'
       /\ (connectionDelay c = false -> connectionDelay c' = false)
       /\ (timeout c = false -> timeout c' = false).
Proof.
  cbv zeta. split; [reflexivity|].
  apply (X17_timers_are_never_rearmed
           (step spawning (StdoutData 0 (jsonBytes "{}" ++ [x0a])))
           [GraceTimer 0; TimeoutTimer 0; CallDisconnect;
            CallConnect None; ProcessExit 0 (Some 0) None]
           0%nat (mkCall (Some spawned) false false false [])).
  reflexivity.
Defined.

Lemma rejectOnce_connected (k : nat) (e : Error) (t : StdioTransport) :
  connected (rejectOnce k e t) = true -> connected t = true.
Proof.
  unfold rejectOnce. destruct (calls t !! k) as [c|]; [|auto].
  destruct (settled c); [auto|discriminate].
Qed.

Lemma emitError_connected (e : Error) (t : StdioTransport) :
  connected (emitError e t).2 = connected t.
Proof. unfold emitError. destruct (errorListeners t); reflexivity. Qed.

Lemma send_keeps_connected (message : jsstring) (w : option Error)
    (t : StdioTransport) :
  connected (send message w t).2 = connected t.
Proof.
  unfold send. destruct (process t); [|apply emitError_connected].
  destruct (connected t) eqn:Hc; [|rewrite <- Hc; apply emitError_connected].
  destruct w; [rewrite <- Hc; apply emitError_connected|exact Hc].
Qed.

(** The connected flag is set by [resolveOnce] alone: a turn of the event
    loop that ends with the flag set found it set, or resolved a call. *)
Lemma step_connected (t : StdioTransport) (e : Event) :
  connected (step t e) = true ->
  connected t = true
  \/ exists k c, calls (step t e) !! k = Some c /\ Resolved ∈ promise c.
Proof.
  destruct e as [sp| |m w| |k|k|k d|k d|k err|k code sg|k code sg];
    cbn [step].
  - unfold connect. destruct (connected t) eqn:Hc; [auto|].
    destruct sp; cbn [snd]; intros H.
    + apply rejectOnce_connected in H. cbn in H. congruence.
    + cbn in H. congruence.
  - unfold disconnect. destruct (process t); [discriminate|auto].
  - rewrite send_keeps_connected. auto.
  - auto.
  - destruct (calls t !! k) as [c|] eqn:Hk; [|auto].
    destruct (connectionDelay c); [|auto].
    cbn [clearConnectionDelay updateCall setCalls connected calls].
    unfold onConnectionDelay. rewrite Hk.
    destruct c as [[ch|] d tm st pr]; [|auto].
    destruct (_ && _).
    + unfold resolveOnce. rewrite Hk. cbn [settled].
      destruct st; [auto|]. intros _. right.
      exists k. eexists. cbn [calls setConnected updateCall setCalls].
      rewrite !list_lookup_alter_eq, Hk. split; [reflexivity|].
      simpl. apply elem_of_app. right. apply list_elem_of_singleton.
      reflexivity.
    + destruct (exitCode ch); [|auto].
      destruct (negb st); [|auto].
      intros H. left. apply rejectOnce_connected in H. exact H.
  - destruct (calls t !! k) as [c|]; [|auto].
    destruct (timeout c); [|auto].
    cbn [clearTimeoutTimer updateCall setCalls connected].
    unfold onTimeout. intros H. apply rejectOnce_connected in H.
    discriminate.
  - destruct (hasChild k t); [|auto].
    destruct (onStdoutData_state k d t) as (_ & _ & _ & -> & _). auto.
  - destruct (hasChild k t); [|auto].
    unfold onStderrData. destruct (trim (toString d)); auto.
  - destruct (hasChild k t); [|auto]. unfold onProcessError.
    set (t1 := clearConnectionDelay k (clearTimeoutTimer k t)).
    change (connected t) with (connected t1).
    destruct (_ && connected t1).
    + pose proof (emitError_connected err t1) as Hb.
      destruct (emitError err t1) as [[|x] t2]; cbn [snd] in Hb.
      * intros H. apply rejectOnce_connected in H. left. congruence.
      * cbn [connected setUncaught]. intros H. left. congruence.
    + intros H. apply rejectOnce_connected in H. auto.
  - destruct (hasChild k t); [|auto]. unfold onProcessClose.
    set (t1 := clearConnectionDelay k (clearTimeoutTimer k t)).
    change (connected t) with (connected t1).
    destruct (calls t1 !! k) as [c|]; [|auto].
    destruct (negb (settled c)); [|discriminate].
    intros H. apply rejectOnce_connected in H. auto.
  - destruct (hasChild k t); [discriminate|auto].
Qed.

(** X18 (connected only after a resolved connect): in every run of the
    event loop from a new transport, whenever [isConnected()] is true,
    some [connect()] of the run has resolved, and the transport holds a
    process handle. *)
Theorem X18_connected_only_after_resolve (configTimeout : option Z)
    (events : list Event) :
  isConnected (run (newStdioTransport configTimeout) events) = true ->
  (exists k c,
      calls (run (newStdioTransport configTimeout) events) !! k = Some c
      /\ settled c = true /\ promise c = [Resolved])
  /\ is_Some (process (run (newStdioTransport configTimeout) events)).
Proof.
  intros Hic.
  assert (Hinv : forall evs t,
            (connected t = true ->
             exists k c, calls t !! k = Some c /\ Resolved ∈ promise c) ->
            connected (run t evs) = true ->
            exists k c, calls (run t evs) !! k = Some c
                        /\ Resolved ∈ promise c).
  { induction evs as [|e evs IH]; intros t Ht; [exact Ht|].
    simpl. apply IH. intros Hc.
    destruct (step_connected t e Hc) as [Hold|Hnew]; [|exact Hnew].
    destruct (Ht Hold) as (k & c & Hk & Hin).
    destruct (step_lookup t e k c Hk) as (c' & Hk' & Hch).
    exists k, c'. split; [exact Hk'|].
    eapply callChange_resolved; eassumption. }
  unfold isConnected in Hic. apply andb_true_iff in Hic as [Hc Hproc].
  split.
  - destruct (Hinv events (newStdioTransport configTimeout)) as (k & c & Hk & Hin);
      [discriminate|exact Hc|].
    exists k, c. split; [exact Hk|].
    pose proof (run_callOk events (newStdioTransport configTimeout)
                  (Forall_nil_2 _)) as Hall.
    rewrite Forall_lookup in Hall.
    destruct (Hall k c Hk) as [[_ Hp]|[Hs [o Hp]]].
    + rewrite Hp in Hin. apply elem_of_nil in Hin. contradiction.
    + split; [exact Hs|]. rewrite Hp in Hin |- *.
      apply list_elem_of_singleton in Hin. congruence.
  - destruct (process _); [eexists; reflexivity|discriminate].
Qed.

Lemma X18_connected_only_after_resolve_witness :
  let events := [CallConnect None; StderrData 0 (bytes "started");
                 GraceTimer 0] in
  isConnected (run (newStdioTransport None) events) = true
  /\ (exists k c,
         calls (run (newStdioTransport None) events) !! k = Some c
         /\ settled c = true /\ promise c = [Resolved])
  /\ is_Some (process (run (newStdioTransport None) events)).
Proof.
  cbv zeta. split; [reflexivity|].
  apply (X18_connected_only_after_resolve None
           [CallConnect None; StderrData 0 (bytes "started"); GraceTimer 0]).
  reflexivity.
Defined.

Lemma cleanup_lookup_child (t : StdioTransport) (k : nat) (c : ConnectCall)
    (ch : ChildProcess) :
  calls t !! k = Some c -> childProcess c = Some ch ->
  exists ch', calls (cleanup t) !! k
              = Some (mkCall (Some ch') (connectionDelay c) (timeout c)
                        (settled c) (promise c)).
Proof.
  intros Hk Hch. destruct (cleanup_state t) as (_ & _ & _ & _ & _ & ->).
  destruct c as [chopt d tm st pr]. simpl in Hch. subst.
  destruct (process t) as [j|]; [|exists ch; exact Hk].
  destruct (decide (j = k)) as [->|Hne].
  - rewrite list_lookup_alter_eq, Hk. eexists. reflexivity.
  - rewrite list_lookup_alter_ne by exact Hne. exists ch. exact Hk.
Qed.

(** X19 (disconnect while a connect is in flight): [disconnect()] leaves
    an unsettled connect call pending; it is the close of its process
    afterwards that rejects it, with the error that carries the exit code
    and the signal. *)
Theorem X19_disconnect_in_flight_rejects_on_close (t : StdioTransport)
    (k : nat) (c : ConnectCall) (ch : ChildProcess) (code : option Z)
    (signal : option string) :
  calls t !! k = Some c -> childProcess c = Some ch -> settled c = false ->
  let t1 := step t CallDisconnect in
  let t2 := step t1 (ProcessClose k code signal) in
  (exists c1, calls t1 !! k = Some c1
      /\ settled c1 = false /\ promise c1 = promise c)
  /\ (exists c2, calls t2 !! k = Some c2
        /\ settled c2 = true
        /\ promise c2
           = promise c ++ [Rejected (ExitedDuringConnection code signal)])
  /\ isConnected t2 = false /\ emitted t2 = emitted t.
Proof.
  intros Hk Hch Hs. cbv zeta.
  assert (H1 : exists ch1,
             calls (step t CallDisconnect) !! k
             = Some (mkCall (Some ch1) (connectionDelay c) (timeout c)
                       false (promise c))
             /\ emitted (step t CallDisconnect) = emitted t).
  { cbn [step]. unfold disconnect.
    destruct (process t) as [j|] eqn:Hp; cbn [snd].
    - destruct (cleanup_lookup_child t k c ch Hk Hch) as (ch1 & Hk1).
      exists ch1. rewrite Hk1, Hs. split; [reflexivity|].
      apply cleanup_state.
    - exists ch. rewrite Hk. destruct c; simpl in *. subst.
      split; reflexivity. }
  destruct H1 as (ch1 & Hk1 & Hem1).
  set (t1 := step t CallDisconnect) in *.
  split; [eexists; split; [exact Hk1|split; reflexivity]|].
  cbn [step]. rewrite (lookup_hasChild k t1 _ ch1 Hk1 eq_refl).
  unfold onProcessClose. rewrite (clearTimers_lookup k t1 _ Hk1).
  cbn [settled setConnectionDelay setTimeout negb].
  destruct (reject_after_clearTimers k (ExitedDuringConnection code signal)
              t1 _ Hk1 eq_refl)
    as (_ & Hic & Hem & _ & c2 & Hk2 & Hs2 & Hp2 & _).
  split; [exists c2; repeat split; assumption|].
  split; [exact Hic|]. rewrite Hem. exact Hem1.
Qed.

Lemma X19_disconnect_in_flight_rejects_on_close_witness :
  let c := mkCall (Some spawned) true true false [] in
  let t1 := step spawning CallDisconnect in
  let t2 := step t1 (ProcessClose 0 None (Some "SIGTERM"%string)) in
  (calls spawning !! 0%nat = Some c /\ childProcess c = Some spawned
   /\ settled c = false)
  /\ (exists c1, calls t1 !! 0%nat = Some c1
        /\ settled c1 = false /\ promise c1 = promise c)
  /\ (exists c2, calls t2 !! 0%nat = Some c2
        /\ settled c2 = true
        /\ promise c2
           = promise c
             ++ [Rejected (ExitedDuringConnection None
                             (Some "SIGTERM"%string))])
  /\ isConnected t2 = false /\ emitted t2 = emitted spawning.
Proof.
  cbv zeta. split; [repeat split|].
  apply (X19_disconnect_in_flight_rejects_on_close spawning 0%nat
           (mkCall (Some spawned) true true false []) spawned
           None (Some "SIGTERM"%string)); reflexivity.
Defined.
